(** * Lantern: the binary command protocol and its stream transport

    A shallow embedding of [lantern.py] (the command model, the registry,
    the wire codec, [CommandTransport] and the receive loop of
    [LanternClient]) and of the two readers of [test_lantern.py], followed
    by the properties of the protocol.

    Conventions.
    - Python [int]s are [Z]; a [bytes]/[bytearray] value is a [list] of
      [Byte.byte]; [None]-able values are [option]s.
    - A Python call that may raise returns an [outcome]: [Ret v] for a normal
      return, [Raise e] for an exception, [OutOfFuel] when a [while] loop was
      cut after [fuel] iterations (the loop has not finished yet).
    - Mutable objects are threaded explicitly: a method takes the object and
      returns its new state.
    - Logging calls and [asyncio.sleep] pauses have no effect on the values
      computed and are left out. *)

From Stdlib Require Import ZArith Lia.
From Stdlib Require Strings.Byte.
From Stdlib Require Import Strings.Ascii.
From stdpp Require Import base option list gmap strings.

Local Open Scope Z_scope.

(** ** Python values *)

Abbreviation bytes := (list Byte.byte).

(** [len(x)] as a Python integer. *)
Definition len {A : Type} (l : list A) : Z := Z.of_nat (length l).
Arguments len : simpl never.

Definition byte_to_Z (b : Byte.byte) : Z := Z.of_N (Byte.to_N b).

Definition byte_of_Z (z : Z) : option Byte.byte :=
  if bool_decide (0 ≤ z) then Byte.of_N (Z.to_N z) else None.

(** The index a slice bound [i] denotes in a sequence [l]: negative bounds
    count from the end, and every bound is clamped to the sequence. *)
Definition slice_index {A : Type} (l : list A) (i : Z) : nat :=
  Z.to_nat (if bool_decide (i < 0) then Z.max 0 (len l + i) else i).

(** [l[:n]] *)
Definition slice_to {A : Type} (l : list A) (n : Z) : list A :=
  take (slice_index l n) l.

(** [l[n:]] *)
Definition slice_from {A : Type} (l : list A) (n : Z) : list A :=
  drop (slice_index l n) l.

(** ** Exceptions and outcomes *)

Inductive exn : Type :=
  | ValueError
  | TypeError
  | StructError                 (* struct.error *)
  | RuntimeError (msg : string) (* any other subclass of Exception *)
  | KeyboardInterrupt           (* a BaseException that is no Exception *)
  | SystemExit.                 (* likewise *)

(** [isinstance(e, Exception)]: what [except Exception] catches. *)
Definition is_Exception (e : exn) : bool :=
  match e with
  | KeyboardInterrupt | SystemExit => false
  | _ => true
  end.

Inductive outcome (A : Type) : Type :=
  | Ret (a : A)
  | Raise (e : exn)
  | OutOfFuel.
Arguments Ret {A} a.
Arguments Raise {A} e.
Arguments OutOfFuel {A}.

#[global] Instance outcome_ret : MRet outcome := @Ret.
#[global] Instance outcome_bind : MBind outcome := λ A B f m,
  match m with
  | Ret a => f a
  | Raise e => Raise e
  | OutOfFuel => OutOfFuel
  end.

(** ** The [struct] formats the program uses *)

Module struct.

(** [pack('>BH', b, h)]: one unsigned byte, one big-endian unsigned
    16-bit integer; a value out of range raises [struct.error]. *)
Definition pack_BH (b h : Z) : outcome bytes :=
  if bool_decide (0 ≤ h ≤ 65535) then
    match byte_of_Z b, byte_of_Z (h / 256), byte_of_Z (h mod 256) with
    | Some b0, Some b1, Some b2 => Ret [b0; b1; b2]
    | _, _, _ => Raise StructError
    end
  else Raise StructError.

(** [pack('>BBB', r, g, b)] *)
Definition pack_BBB (r g b : Z) : outcome bytes :=
  match byte_of_Z r, byte_of_Z g, byte_of_Z b with
  | Some b0, Some b1, Some b2 => Ret [b0; b1; b2]
  | _, _, _ => Raise StructError
  end.

(** [pack(f'>{n}s', v)]: exactly [n] bytes, [v] cut or padded with null
    bytes; [v] must be a bytes object. *)
Definition pack_s (n : Z) (v : option bytes) : outcome bytes :=
  match v with
  | None => Raise StructError
  | Some s =>
      Ret (take (Z.to_nat n) s
             ++ replicate (Z.to_nat n - length s)%nat Byte.x00)
  end.

(** [unpack('>BH', buffer)]: the buffer must hold exactly 3 bytes. *)
Definition unpack_BH (buffer : bytes) : outcome (Z * Z) :=
  match buffer with
  | [b0; b1; b2] => Ret (byte_to_Z b0, 256 * byte_to_Z b1 + byte_to_Z b2)
  | _ => Raise StructError
  end.

(** [unpack('>BBB', buffer)]; [None] is not a buffer. *)
Definition unpack_BBB (buffer : option bytes) : outcome (Z * Z * Z) :=
  match buffer with
  | None => Raise TypeError
  | Some [b0; b1; b2] => Ret (byte_to_Z b0, byte_to_Z b1, byte_to_Z b2)
  | Some _ => Raise StructError
  end.

(** [unpack_from(f'>{n}s', buffer, offset)]: [n] bytes from [offset] on;
    the buffer must hold at least that many. *)
Definition unpack_from_s (n : Z) (buffer : bytes) (offset : Z) : outcome bytes :=
  if bool_decide (len buffer - offset < n) then Raise StructError
  else Ret (take (Z.to_nat n) (drop (Z.to_nat offset) buffer)).

End struct.

(** ** Constants *)

Definition COMMAND_HEADER_LENGTH : Z := 3.

(** ** Command model *)

(** A command class: its name and its [type] class attribute. *)
Record command_class : Type := Class {
  class_name : string;
  class_type : Z;
}.

#[global] Instance command_class_eq_dec : EqDecision command_class.
Proof. solve_decision. Defined.

Module BaseCommand.

(** An instance: its class and the two attributes [__init__] sets. *)
Record t : Type := mk {
  cls : command_class;
  value : option bytes;
  length : Z;
}.

(** [command.type] resolves to the class attribute. *)
Definition type (self : t) : Z := class_type (cls self).

(** [cls(value)], i.e. [__init__]. *)
Definition __init__ (c : command_class) (value : option bytes) : outcome t :=
  Ret {| cls := c;
         value := value;
         length := match value with Some v => len v | None => 0 end |}.

(** The tuple [__hash__] hashes. *)
Definition hash_key (self : t) : Z * Z * option bytes :=
  (type self, length self, value self).

Section Hash.
(** Python's builtin [hash] on such tuples: some function. *)
Variable hash : Z * Z * option bytes → Z.

Definition __hash__ (self : t) : Z := hash (hash_key self).

Definition __eq__ (self other : t) : bool :=
  bool_decide (__hash__ self = __hash__ other).
End Hash.

End BaseCommand.

Abbreviation command := BaseCommand.t.

Definition BaseCommand_class : command_class := Class "BaseCommand" 0x00.
Definition CommandUnknown : command_class := Class "CommandUnknown" 0x99.
Definition CommandOn : command_class := Class "CommandOn" 0x12.
Definition CommandOff : command_class := Class "CommandOff" 0x13.
Definition CommandColor : command_class := Class "CommandColor" 0x20.

Module CommandColor_.

(** The [rgb] property. *)
Definition rgb (self : command) : outcome (Z * Z * Z) :=
  struct.unpack_BBB (BaseCommand.value self).

Definition from_rgb (r g b : Z) : outcome command :=
  value ← struct.pack_BBB r g b;
  BaseCommand.__init__ CommandColor (Some value).

End CommandColor_.

(** ** Registry and wire codec *)

Module CommandProtocol.

(** [encode(command)] *)
Definition encode (command : command) : outcome bytes :=
  message ← struct.pack_BH (BaseCommand.type command) (BaseCommand.length command);
  if bool_decide (0 < BaseCommand.length command) then
    payload ← struct.pack_s (BaseCommand.length command) (BaseCommand.value command);
    Ret (message ++ payload)
  else Ret message.

(** [decode(type_, value)], reading the registry. *)
Definition decode (_registry : gmap Z command_class)
    (type_ : Z) (value : option bytes) : outcome (option command) :=
  match _registry !! type_ with
  | None => Ret None
  | Some c => command ← BaseCommand.__init__ c value; Ret (Some command)
  end.

(** [register(command)]: the registry is shared mutable state, so the call
    returns its outcome together with the registry it leaves behind. *)
Definition register (command : command_class) (_registry : gmap Z command_class)
    : outcome unit * gmap Z command_class :=
  match _registry !! class_type command with
  | Some _ => (Raise ValueError, _registry)
  | None => (Ret (), <[class_type command := command]> _registry)
  end.

End CommandProtocol.

(** [Meta.__new__] registers every command class when it is defined; the
    module defines five of them, in this order. *)
Definition defined_classes : list command_class :=
  [BaseCommand_class; CommandUnknown; CommandOn; CommandOff; CommandColor].

(** Defining the classes of [l] one after the other; the first failing
    registration aborts the module. *)
Fixpoint define_classes (l : list command_class) (_registry : gmap Z command_class)
    : outcome unit * gmap Z command_class :=
  match l with
  | [] => (Ret (), _registry)
  | c :: l' =>
      match CommandProtocol.register c _registry with
      | (Ret _, _registry') => define_classes l' _registry'
      | failed => failed
      end
  end.

(** The registry once the module is loaded. *)
Definition module_registry : gmap Z command_class :=
  (define_classes defined_classes ∅).2.

(** ** Readers

    What [CommandTransport] asks of its reader: [read(n)], which returns
    some bytes and advances the stream, and [at_eof()]. *)

Class Reader (R : Type) : Type := {
  read : R → Z → bytes * R;
  at_eof : R → bool;
}.

(** "Reads data as much as requested until the data depletes." *)
Module DefaultReader.

Record t : Type := mk { _data : bytes }.

Definition read (self : t) (n : Z) : bytes * t :=
  let chunk := slice_to (_data self) n in
  (chunk, mk (slice_from (_data self) n)).

Definition at_eof (self : t) : bool :=
  bool_decide (len (_data self) = 0).

End DefaultReader.

#[global] Instance DefaultReader_Reader : Reader DefaultReader.t :=
  {| read := DefaultReader.read; at_eof := DefaultReader.at_eof |}.

(** "Reads one byte of data at a time until the data depletes." *)
Module OneByteAtATimeReader.

(** A subclass of [DefaultReader]: only [read] is overridden. *)
Record t : Type := mk { super : DefaultReader.t }.

Definition read (self : t) (n : Z) : bytes * t :=
  let '(chunk, base) := DefaultReader.read (super self) 1 in
  (chunk, mk base).

Definition at_eof (self : t) : bool := DefaultReader.at_eof (super self).

End OneByteAtATimeReader.

#[global] Instance OneByteAtATimeReader_Reader : Reader OneByteAtATimeReader.t :=
  {| read := OneByteAtATimeReader.read; at_eof := OneByteAtATimeReader.at_eof |}.

(** ** Stream transport *)

Module CommandTransport.
Section WithReader.
Context {R : Type} `{!Reader R}.

(** The transport owns its reader and its read buffer (the writer plays
    no part in receiving). *)
Record t : Type := mk {
  _reader : R;
  _read_buffer : bytes;
}.

Definition __init__ (reader : R) : t := mk reader [].

Definition at_eof (self : t) : bool := at_eof (_reader self).

(** The [while] loop of [_retry_read], entered with [read_so_far]. *)
Fixpoint _retry_read_from (fuel : nat) (self : t) (n : Z) (read_so_far : bytes)
    : outcome (bytes * t) :=
  if bool_decide (len read_so_far < n) then
    match fuel with
    | O => OutOfFuel
    | S fuel' =>
        let '(chunk, reader) := read (_reader self) (n - len read_so_far) in
        let self := mk reader (_read_buffer self) in
        let read_so_far := read_so_far ++ chunk in
        if at_eof self then Ret (read_so_far, self)
        else _retry_read_from fuel' self n read_so_far
    end
  else Ret (read_so_far, self).

Definition _retry_read (fuel : nat) (self : t) (n : Z) : outcome (bytes * t) :=
  _retry_read_from fuel self n [].

Definition _bytes_missing (self : t) (required_length : Z) : Z :=
  required_length - len (_read_buffer self).

(** How the loop that waits for [required_length] buffered bytes ends:
    by its [return None] at end of stream, or with its condition false. *)
Inductive awaited : Type :=
  | Eof (self : t)
  | Buffered (self : t).

(** The loop
      [while self._bytes_missing(required_length) > 0:
           if self.at_eof(): return None
           self._read_buffer += await self._retry_read(self._bytes_missing(required_length))]
    which [recv] runs for the header and [_process_buffer] for the whole
    frame. *)
Fixpoint _await_buffered (fuel : nat) (self : t) (required_length : Z)
    : outcome awaited :=
  if bool_decide (0 < _bytes_missing self required_length) then
    match fuel with
    | O => OutOfFuel
    | S fuel' =>
        if at_eof self then Ret (Eof self)
        else
          '(chunk, self) ← _retry_read fuel self (_bytes_missing self required_length);
          _await_buffered fuel'
            (mk (_reader self) (_read_buffer self ++ chunk)) required_length
    end
  else Ret (Buffered self).

(** The last two statements of [_process_buffer]. *)
Definition _consume_frame (registry : gmap Z command_class) (self : t)
    (type_ length : Z) (value : option bytes) : outcome (option command * t) :=
  let self := mk (_reader self)
                 (slice_from (_read_buffer self) (length + COMMAND_HEADER_LENGTH)) in
  command ← CommandProtocol.decode registry type_ value;
  Ret (command, self).

Definition _process_buffer (fuel : nat) (registry : gmap Z command_class) (self : t)
    : outcome (option command * t) :=
  '(type_, length) ← struct.unpack_BH (_read_buffer self);
  if bool_decide (0 < length) then
    filled ← _await_buffered fuel self (length + COMMAND_HEADER_LENGTH);
    match filled with
    | Eof self => Ret (None, self)
    | Buffered self =>
        value ← struct.unpack_from_s length (_read_buffer self) COMMAND_HEADER_LENGTH;
        _consume_frame registry self type_ length (Some value)
    end
  else _consume_frame registry self type_ length None.

Definition recv (fuel : nat) (registry : gmap Z command_class) (self : t)
    : outcome (option command * t) :=
  filled ← _await_buffered fuel self COMMAND_HEADER_LENGTH;
  match filled with
  | Eof self => Ret (None, self)
  | Buffered self => _process_buffer fuel registry self
  end.

(** [[await transport.recv() for _ in range(k)]] *)
Fixpoint recv_times (fuel : nat) (registry : gmap Z command_class) (self : t)
    (k : nat) : outcome (list (option command) * t) :=
  match k with
  | O => Ret ([], self)
  | S k' =>
      '(command, self) ← recv fuel registry self;
      '(result, self) ← recv_times fuel registry self k';
      Ret (command :: result, self)
  end.

End WithReader.
Arguments t R : clear implicits.
End CommandTransport.

(** ** Client session *)

Module LanternClient.
Section Session.
(** [R]: the streams connections hand out; [W]: whatever the callback
    acts upon (the lantern, a list of received commands, ...). *)
Context {R : Type} `{!Reader R} {W : Type}.

(** A callback is called for its effect on [W] and may raise. *)
Definition callback : Type := command → W → outcome unit * W.

Record t : Type := mk {
  _running : bool;
  _num_connections_to_process : option Z;
  _on_command_callback : option callback;
}.

Definition __init__ (num_connections_to_process : option Z)
    (on_command_callback : option callback) : t :=
  mk true num_connections_to_process on_command_callback.

Definition handle_interrupt (self : t) : t :=
  mk false (_num_connections_to_process self) (_on_command_callback self).

(** The network, as the successive answers to [asyncio.open_connection]:
    [Some reader] for an accepted connection, [None] for
    [ConnectionRefusedError]; once the list is used up every further
    attempt is refused. *)
Definition network : Type := list (option R).

Fixpoint _connect (fuel : nat) (self : t) (net : network)
    : outcome (option (CommandTransport.t R) * t * network) :=
  if _running self && negb (bool_decide (_num_connections_to_process self = Some 0)) then
    match fuel with
    | O => OutOfFuel
    | S fuel' =>
        match net with
        | Some reader :: net' =>
            let self :=
              mk (_running self)
                 (match _num_connections_to_process self with
                  | Some k => Some (k - 1)
                  | None => None
                  end)
                 (_on_command_callback self) in
            Ret (Some (CommandTransport.__init__ reader), self, net')
        | None :: net' => _connect fuel' self net'
        | [] => _connect fuel' self []
        end
    end
  else Ret (None, self, net).

(** The inner loop of [loop]:
      [while self._running and not transport.at_eof(): ...] *)
Fixpoint _receive_commands (fuel : nat) (registry : gmap Z command_class)
    (self : t) (transport : CommandTransport.t R) (w : W)
    : outcome (CommandTransport.t R * W) :=
  if _running self && negb (CommandTransport.at_eof transport) then
    match fuel with
    | O => OutOfFuel
    | S fuel' =>
        '(command, transport) ← CommandTransport.recv fuel registry transport;
        match command, _on_command_callback self with
        | Some command, Some on_command_callback =>
            match on_command_callback command w with
            | (Ret _, w) => _receive_commands fuel' registry self transport w
            | (Raise e, w) =>
                if is_Exception e
                then _receive_commands fuel' registry self transport w
                else Raise e
            | (OutOfFuel, _) => OutOfFuel
            end
        | _, _ => _receive_commands fuel' registry self transport w
        end
    end
  else Ret (transport, w).

Fixpoint loop (fuel : nat) (registry : gmap Z command_class)
    (self : t) (net : network) (w : W) : outcome (t * network * W) :=
  if _running self then
    match fuel with
    | O => OutOfFuel
    | S fuel' =>
        '(transport, self, net) ← _connect fuel self net;
        match transport with
        | None => Ret (self, net, w)
        | Some transport =>
            '(_, w) ← _receive_commands fuel registry self transport w;
            loop fuel' registry self net w
        end
    end
  else Ret (self, net, w).

End Session.
Arguments t W : clear implicits.
Arguments callback W : clear implicits.
Arguments network R : clear implicits.
End LanternClient.

(** ** Notions the statements below use *)

(** The type byte and the payload that [_process_buffer] reads off a buffer
    holding one whole frame: its [unpack] of the header and, for a non-zero
    length, its [unpack_from] of the payload ([None] otherwise). *)
Definition frame_fields (frame : bytes) : outcome (Z * option bytes) :=
  '(type_, length) ← struct.unpack_BH (slice_to frame COMMAND_HEADER_LENGTH);
  if bool_decide (0 < length) then
    value ← struct.unpack_from_s length frame COMMAND_HEADER_LENGTH;
    Ret (type_, Some value)
  else Ret (type_, None).

(** [reduce(lambda acc, x: acc + CommandProtocol.encode(x), commands, acc)] *)
Fixpoint encode_all (commands : list command) (acc : bytes) : outcome bytes :=
  match commands with
  | [] => Ret acc
  | x :: commands' =>
      message ← CommandProtocol.encode x;
      encode_all commands' (acc ++ message)
  end.

(** The commands of [test_recv_several_commands]. *)
Definition several_commands : outcome (list command) :=
  color1 ← CommandColor_.from_rgb 10 20 30;
  on ← BaseCommand.__init__ CommandOn None;
  off ← BaseCommand.__init__ CommandOff None;
  color2 ← CommandColor_.from_rgb 40 50 60;
  Ret [color1; on; off; color2].

(** The payload length the data model gives a command: [len(value)], or 0
    without a value. *)
Definition value_length (value : option bytes) : Z :=
  match value with Some v => len v | None => 0 end.

(** A command's trip over the wire: encoded, split into the fields of its
    frame, decoded. *)
Definition over_the_wire (registry : gmap Z command_class) (c : command)
    : outcome (option command) :=
  frame ← CommandProtocol.encode c;
  '(type_, value) ← frame_fields frame;
  CommandProtocol.decode registry type_ value.

(** What a callback leaves of [w] once it has been called, in order, on
    every command of [commands] that arrives as a command, each call
    counting for its effect whether it returned or raised. *)
Fixpoint called_on_each {W : Type} (on_command_callback : LanternClient.callback W)
    (registry : gmap Z command_class) (commands : list command) (w : W) : W :=
  match commands with
  | [] => w
  | c :: commands' =>
      match over_the_wire registry c with
      | Ret (Some command) =>
          called_on_each on_command_callback registry commands'
            (on_command_callback command w).2
      | _ => called_on_each on_command_callback registry commands' w
      end
  end.

(** A callback that raises on every command, after taking note of it. *)
Definition failing_callback : LanternClient.callback (list command) :=
  λ command received, (Raise (RuntimeError "callback failed"), received ++ [command]).

(** What [decode] returns, as a value: it never raises. *)
Definition decoded (registry : gmap Z command_class) (type_ : Z)
    (value : option bytes) : option command :=
  (λ c, BaseCommand.mk c value (value_length value)) <$> registry !! type_.

(** The payload as it travels: [_process_buffer] hands [decode] the payload
    bytes of a frame with a non-zero length, and [None] otherwise. *)
Definition wire_value (payload : bytes) : option bytes :=
  if bool_decide (0 < len payload) then Some payload else None.

(** A reader over a finite byte string that it hands out in chunks of its own
    choosing: [read(n)], for [n > 0], returns a prefix of what is [pending],
    of at most [n] bytes and of at least one byte while some are pending, and
    [at_eof()] holds once nothing is pending.  Both readers of the test suite
    are of this kind. *)
Class FiniteStream (R : Type) `{!Reader R} : Type := {
  pending : R → bytes;
  read_chunk : ∀ r n, 0 < n → pending r = (read r n).1 ++ pending (read r n).2;
  read_bound : ∀ r n, 0 < n → len (read r n).1 ≤ n;
  read_progress : ∀ r n, 0 < n → pending r ≠ [] → (read r n).1 ≠ [];
  at_eof_pending : ∀ r, at_eof r = bool_decide (pending r = []);
}.

(** A peer that stays connected and sends nothing: every [read] returns no
    byte and the stream never reaches its end. *)
Module SilentReader.
Definition t : Type := unit.
Definition read (self : t) (n : Z) : bytes * t := ([], self).
Definition at_eof (self : t) : bool := false.
End SilentReader.

#[global] Instance SilentReader_Reader : Reader SilentReader.t :=
  {| read := SilentReader.read; at_eof := SilentReader.at_eof |}.

(** ** The lantern *)

Module Lantern.

Record t : Type := mk {
  _color : Z * Z * Z;
  _active : bool;
}.

Definition __init__ : t := mk (0, 0, 0) false.

(** [isinstance(command, c)]; the module derives no class from [CommandOn],
    [CommandOff] or [CommandColor], so the instances of [c] are the commands
    of class [c]. *)
Definition isinstance (command : command) (c : command_class) : bool :=
  bool_decide (BaseCommand.cls command = c).

(** [on_command(command)], in the shape of a client callback: its outcome
    and the lantern it leaves. *)
Definition on_command (command : command) (self : t) : outcome unit * t :=
  if isinstance command CommandOn then (Ret (), mk (_color self) true)
  else if isinstance command CommandOff then (Ret (), mk (_color self) false)
  else if isinstance command CommandColor then
    match CommandColor_.rgb command with
    | Ret rgb => (Ret (), mk rgb (_active self))
    | Raise e => (Raise e, self)
    | OutOfFuel => (OutOfFuel, self)
    end
  else (Ret (), self).

End Lantern.

(** ** Sending *)

(** What the program does to a writer: the calls it makes, in order. *)
Inductive writer_call : Type :=
  | Write (message : bytes)
  | Close.


(** [hex_encode(string)], the message as the log shows it. *)
Module Hex.

(** One hexadecimal digit, in lower case. *)
Definition digit (d : N) : Ascii.ascii :=
  default "f"%char (String.get (N.to_nat d) "0123456789abcdef").

(** ["{:02x}".format(c)] for a byte [c]. *)
Definition format_02x (c : Byte.byte) : string :=
  String (digit (Byte.to_N c / 16)) (String (digit (Byte.to_N c mod 16)) EmptyString).

End Hex.

Definition hex_encode (string_ : bytes) : string :=
  String.concat ":" (Hex.format_02x <$> string_).

(** [CommandTransport.send(command)], on the writer's calls so far: the
    encoded message is written, unless [encode] raises. *)
Definition send (_writer : list writer_call) (command : command)
    : outcome unit * list writer_call :=
  match CommandProtocol.encode command with
  | Ret message => (Ret (), _writer ++ [Write message])
  | Raise e => (Raise e, _writer)
  | OutOfFuel => (OutOfFuel, _writer)
  end.

Module LanternServer.

(** The server: its bound on connections, its script, and whether it has
    stopped its event loop. *)
Record t : Type := mk {
  _num_connections_to_serve : option Z;
  _commands : list command;
  _loop_stopped : bool;
}.

(** The script of a server that is given none. *)
Definition default_commands : outcome (list command) :=
  color1 ← CommandColor_.from_rgb 1 2 10;
  on ← BaseCommand.__init__ CommandOn None;
  color2 ← CommandColor_.from_rgb 100 2 10;
  off ← BaseCommand.__init__ CommandOff None;
  unknown ← BaseCommand.__init__ CommandUnknown None;
  Ret [color1; on; color2; off; unknown].

Definition __init__ (num_connections_to_serve : option Z)
    (commands : option (list command)) : outcome t :=
  commands ← match commands with
             | Some commands => Ret commands
             | None => default_commands
             end;
  Ret (mk num_connections_to_serve commands false).

(** The [for] loop of [_handle_server]. *)
Fixpoint _send_commands (commands : list command) (writer : list writer_call)
    : outcome unit * list writer_call :=
  match commands with
  | [] => (Ret (), writer)
  | command :: commands' =>
      match send writer command with
      | (Ret _, writer) => _send_commands commands' writer
      | failed => failed
      end
  end.

(** [_handle_server(reader, writer)]: the outcome, the server and the
    writer's calls afterwards. *)
Definition _handle_server (self : t) (writer : list writer_call)
    : outcome unit * (t * list writer_call) :=
  match _send_commands (_commands self) writer with
  | (Ret _, writer) =>
      let writer := writer ++ [Close] in
      match _num_connections_to_serve self with
      | Some k =>
          let k := k - 1 in
          (Ret (),
           (mk (Some k) (_commands self)
               (if bool_decide (k = 0) then true else _loop_stopped self),
            writer))
      | None => (Ret (), (self, writer))
      end
  | (failed, writer) => (failed, (self, writer))
  end.

End LanternServer.


(** What [recv] makes of the bytes [data] of a stream, from an empty buffer:
    the command returned, the buffer left and the bytes left in the
    stream. *)
Definition recv_result (registry : gmap Z command_class) (data : bytes)
    : option command * bytes * bytes :=
  match struct.unpack_BH (take 3 data) with
  | Ret (type_, length) =>
      if bool_decide (len (drop 3 data) < length) then (None, data, [])
      else (decoded registry type_
              (wire_value (take (Z.to_nat length) (drop 3 data))),
            [], drop (3 + Z.to_nat length) data)
  | _ => (None, data, [])
  end.

(** A registry in which every class sits under its own type byte, as
    [register] puts it. *)
Definition keyed_by_type (registry : gmap Z command_class) : Prop :=
  ∀ type_ c, registry !! type_ = Some c → class_type c = type_.

(** What [encode] needs of a command: a type that fits a byte, a length that
    fits 16 bits, and a value to pack when the length is not 0. *)
Definition encodable (c : command) : Prop :=
  0 ≤ BaseCommand.type c ≤ 255
  ∧ 0 ≤ BaseCommand.length c ≤ 65535
  ∧ (0 < BaseCommand.length c → BaseCommand.value c ≠ None).

(** Whether a command switches the lantern, and to what. *)
Definition switches_to (command : command) : option bool :=
  if Lantern.isinstance command CommandOn then Some true
  else if Lantern.isinstance command CommandOff then Some false
  else None.

(** The colour a command gives the lantern, if it gives one: the components
    of a [Color] command with a 3-byte value. *)
Definition colours_to (command : command) : option (Z * Z * Z) :=
  if Lantern.isinstance command CommandColor then
    match CommandColor_.rgb command with
    | Ret rgb => Some rgb
    | _ => None
    end
  else None.

(** The lantern after [on_command] was called on each command in turn,
    the calls that raised included. *)
Definition lantern_after (commands : list command) (self : Lantern.t) : Lantern.t :=
  foldl (λ self command, (Lantern.on_command command self).2) self commands.

(** The part of the network a list of connections makes up: for each
    connection its refused attempts, then the accepted one. *)
Definition attempts {R : Type} (connections : list (nat * R * list command))
    : LanternClient.network R :=
  concat ((λ '(refused, reader, _), replicate refused None ++ [Some reader])
            <$> connections).

(** Short names for the transport's fields and methods; a bare [at_eof] is
    the reader's, the transport's is written [CommandTransport.at_eof]. *)
Module TransportNames.
Abbreviation mk := CommandTransport.mk.
Abbreviation _reader := CommandTransport._reader.
Abbreviation _read_buffer := CommandTransport._read_buffer.
Abbreviation _retry_read_from := CommandTransport._retry_read_from.
Abbreviation _retry_read := CommandTransport._retry_read.
Abbreviation _bytes_missing := CommandTransport._bytes_missing.
Abbreviation _await_buffered := CommandTransport._await_buffered.
Abbreviation Eof := CommandTransport.Eof.
Abbreviation Buffered := CommandTransport.Buffered.
Abbreviation _consume_frame := CommandTransport._consume_frame.
Abbreviation _process_buffer := CommandTransport._process_buffer.
Abbreviation recv := CommandTransport.recv.
Abbreviation recv_times := CommandTransport.recv_times.
End TransportNames.

(** * Properties *)

(** ** Bytes and [struct] *)

Lemma byte_to_Z_range b : 0 ≤ byte_to_Z b ≤ 255.
Proof.
  unfold byte_to_Z. pose proof (Byte.to_N_bounded b) as Hb.
  apply N2Z.inj_le in Hb. simpl in Hb. lia.
Qed.

Lemma byte_of_to_Z b : byte_of_Z (byte_to_Z b) = Some b.
Proof.
  unfold byte_of_Z, byte_to_Z. rewrite bool_decide_true by lia.
  rewrite N2Z.id. apply Byte.of_to_N.
Qed.

Lemma byte_of_Z_Some z b : byte_of_Z z = Some b → byte_to_Z b = z.
Proof.
  unfold byte_of_Z, byte_to_Z. case_bool_decide; [|done].
  intros Hb. apply Byte.to_of_N in Hb. rewrite Hb. lia.
Qed.

Lemma byte_of_Z_is_Some z : 0 ≤ z ≤ 255 → is_Some (byte_of_Z z).
Proof.
  intros Hz. unfold byte_of_Z. rewrite bool_decide_true by lia.
  destruct (Byte.of_N (Z.to_N z)) as [b|] eqn:Hb; [by eexists|].
  apply Byte.of_N_None_iff in Hb. lia.
Qed.

Lemma byte_of_Z_None z : byte_of_Z z = None → ¬ (0 ≤ z ≤ 255).
Proof.
  intros Hn Hz. destruct (byte_of_Z_is_Some z Hz) as [b Hb]. congruence.
Qed.

(** Arithmetic over [len]. *)
Ltac len_lia :=
  unfold len, COMMAND_HEADER_LENGTH in *;
  cbn [CommandTransport._reader CommandTransport._read_buffer] in *;
  rewrite ?length_app, ?length_take, ?length_drop in *;
  cbn [length] in *; lia.

Lemma len_app {A} (l k : list A) : len (l ++ k) = len l + len k.
Proof. unfold len. rewrite length_app. lia. Qed.

Lemma len_nonneg {A} (l : list A) : 0 ≤ len l.
Proof. unfold len. lia. Qed.

Lemma len_nil_inv {A} (l : list A) : len l = 0 → l = [].
Proof. destruct l; [done|]. unfold len. simpl. lia. Qed.

(** [pack('>BH', b, h)] succeeds exactly on an unsigned byte and an unsigned
    16-bit integer, and [unpack] reads both back. *)
Lemma pack_BH_Ret b h :
  0 ≤ b ≤ 255 → 0 ≤ h ≤ 65535 →
  ∃ b0 b1 b2, struct.pack_BH b h = Ret [b0; b1; b2]
    ∧ byte_to_Z b0 = b ∧ byte_to_Z b1 = h / 256 ∧ byte_to_Z b2 = h mod 256.
Proof.
  intros Hb Hh. unfold struct.pack_BH. rewrite bool_decide_true by done.
  destruct (byte_of_Z_is_Some b Hb) as [b0 H0].
  destruct (byte_of_Z_is_Some (h / 256)) as [b1 H1].
  { split; [apply Z.div_pos; lia|].
    assert (h / 256 < 256) by (apply Z.div_lt_upper_bound; lia). lia. }
  destruct (byte_of_Z_is_Some (h mod 256)) as [b2 H2].
  { pose proof (Z.mod_pos_bound h 256). lia. }
  rewrite H0, H1, H2. exists b0, b1, b2.
  apply byte_of_Z_Some in H0, H1, H2. done.
Qed.

Lemma pack_BH_inv b h message :
  struct.pack_BH b h = Ret message →
  0 ≤ b ≤ 255 ∧ 0 ≤ h ≤ 65535 ∧ len message = 3
  ∧ struct.unpack_BH message = Ret (b, h).
Proof.
  unfold struct.pack_BH. case_bool_decide as Hh; [|done].
  destruct (byte_of_Z b) as [b0|] eqn:H0; [|done].
  destruct (byte_of_Z (h / 256)) as [b1|] eqn:H1; [|done].
  destruct (byte_of_Z (h mod 256)) as [b2|] eqn:H2; [|done].
  intros [= <-]. apply byte_of_Z_Some in H0, H1, H2.
  pose proof (byte_to_Z_range b0).
  repeat split; try lia. cbv [struct.unpack_BH]. rewrite H0, H1, H2.
  do 2 f_equal. pose proof (Z.div_mod h 256). lia.
Qed.

Lemma unpack_BH_range buffer type_ length :
  struct.unpack_BH buffer = Ret (type_, length) →
  len buffer = 3 ∧ 0 ≤ type_ ≤ 255 ∧ 0 ≤ length ≤ 65535.
Proof.
  destruct buffer as [|b0 [|b1 [|b2 [|]]]]; try done.
  cbv [struct.unpack_BH]. intros [= <- <-].
  pose proof (byte_to_Z_range b0). pose proof (byte_to_Z_range b1).
  pose proof (byte_to_Z_range b2). repeat split; lia.
Qed.

Lemma unpack_BH_three buffer :
  len buffer = 3 → ∃ type_ length, struct.unpack_BH buffer = Ret (type_, length).
Proof.
  destruct buffer as [|b0 [|b1 [|b2 [|]]]]; unfold len; cbn [length]; try lia.
  intros _. by eexists _, _.
Qed.

Lemma unpack_BH_pack buffer type_ length :
  struct.unpack_BH buffer = Ret (type_, length) →
  struct.pack_BH type_ length = Ret buffer.
Proof.
  destruct buffer as [|b0 [|b1 [|b2 [|]]]]; try done.
  cbv [struct.unpack_BH]. intros [= <- <-].
  pose proof (byte_to_Z_range b0). pose proof (byte_to_Z_range b1).
  pose proof (byte_to_Z_range b2).
  unfold struct.pack_BH. rewrite bool_decide_true by lia.
  replace ((256 * byte_to_Z b1 + byte_to_Z b2) / 256) with (byte_to_Z b1)
    by (apply (Z.div_unique _ _ _ (byte_to_Z b2)); lia).
  replace ((256 * byte_to_Z b1 + byte_to_Z b2) mod 256) with (byte_to_Z b2)
    by (apply (Z.mod_unique _ _ (byte_to_Z b1)); lia).
  by rewrite !byte_of_to_Z.
Qed.

Lemma slice_to_nonneg {A} (l : list A) n :
  0 ≤ n → slice_to l n = take (Z.to_nat n) l.
Proof.
  intros Hn. unfold slice_to, slice_index. by rewrite bool_decide_false by lia.
Qed.

Lemma slice_from_nonneg {A} (l : list A) n :
  0 ≤ n → slice_from l n = drop (Z.to_nat n) l.
Proof.
  intros Hn. unfold slice_from, slice_index. by rewrite bool_decide_false by lia.
Qed.

(** ** Wire codec *)

Lemma module_registry_eq :
  module_registry =
    <[0x20 := CommandColor]> (<[0x13 := CommandOff]> (<[0x12 := CommandOn]>
      (<[0x99 := CommandUnknown]> (<[0x00 := BaseCommand_class]> ∅)))).
Proof. reflexivity. Qed.

Lemma define_classes_ok : (define_classes defined_classes ∅).1 = Ret ().
Proof. reflexivity. Qed.

Lemma pack_s_exact (v : bytes) : struct.pack_s (len v) (Some v) = Ret v.
Proof.
  unfold struct.pack_s, len. rewrite Nat2Z.id, firstn_all, Nat.sub_diag.
  simpl. by rewrite app_nil_r.
Qed.

Lemma pack_s_len n v payload :
  0 ≤ n → struct.pack_s n v = Ret payload → len payload = n.
Proof.
  intros Hn. destruct v as [v|]; [|done]. intros [= <-].
  unfold len. rewrite length_app, length_take, length_replicate. lia.
Qed.

(** What [encode] returns, when it returns: a 3-byte header that unpacks to
    the command's type and length, then exactly [length] payload bytes. *)
Lemma encode_Ret_inv c frame :
  CommandProtocol.encode c = Ret frame →
  ∃ header payload,
    frame = header ++ payload
    ∧ struct.unpack_BH header = Ret (BaseCommand.type c, BaseCommand.length c)
    ∧ len payload = BaseCommand.length c
    ∧ (0 < BaseCommand.length c →
       struct.pack_s (BaseCommand.length c) (BaseCommand.value c) = Ret payload).
Proof.
  unfold CommandProtocol.encode.
  destruct (struct.pack_BH _ _) as [message| |] eqn:Hm; try done.
  apply pack_BH_inv in Hm as (Ht & Hl & Hlen & Hun). cbn.
  case_bool_decide as Hpos.
  - destruct (struct.pack_s _ _) as [payload| |] eqn:Hp; try done.
    cbn. intros [= <-]. exists message, payload.
    split_and!; [done|done| |done]. eapply pack_s_len; [|done]. lia.
  - intros [= <-]. exists message, []. rewrite app_nil_r.
    split_and!; [done|done| |lia]. unfold len. simpl. lia.
Qed.

(** C5. For every command of the data model (an unsigned 8-bit type, an
    unsigned 16-bit length equal to [len(value)], or to 0 without a value),
    [encode] returns [3 + length] bytes: the type byte, the length as two
    big-endian bytes, then the payload bytes, present only when
    [length > 0].  [On] encodes to [12 00 00], [Off] to [13 00 00] and
    [Color(1,2,3)] to [20 00 03 01 02 03]. *)
Theorem encode_layout :
  (∀ c : command,
     0 ≤ BaseCommand.type c ≤ 255 →
     BaseCommand.length c ≤ 65535 →
     BaseCommand.length c = value_length (BaseCommand.value c) →
     ∃ b0 b1 b2 payload,
       CommandProtocol.encode c = Ret ([b0; b1; b2] ++ payload)
       ∧ byte_to_Z b0 = BaseCommand.type c
       ∧ 256 * byte_to_Z b1 + byte_to_Z b2 = BaseCommand.length c
       ∧ payload = (if bool_decide (0 < BaseCommand.length c)
                    then default [] (BaseCommand.value c) else [])
       ∧ len ([b0; b1; b2] ++ payload) = 3 + BaseCommand.length c)
  ∧ (c ← BaseCommand.__init__ CommandOn None; CommandProtocol.encode c)
      = Ret [Byte.x12; Byte.x00; Byte.x00]
  ∧ (c ← BaseCommand.__init__ CommandOff None; CommandProtocol.encode c)
      = Ret [Byte.x13; Byte.x00; Byte.x00]
  ∧ (c ← CommandColor_.from_rgb 1 2 3; CommandProtocol.encode c)
      = Ret [Byte.x20; Byte.x00; Byte.x03; Byte.x01; Byte.x02; Byte.x03].
Proof.
  split; [|by vm_compute].
  intros [k v l]. unfold BaseCommand.type. cbn [BaseCommand.cls BaseCommand.value BaseCommand.length].
  intros Ht Hmax Hl.
  assert (0 ≤ l) as Hmin by (subst l; destruct v; [apply len_nonneg | done]).
  destruct (pack_BH_Ret (class_type k) l) as (b0 & b1 & b2 & Hm & H0 & H1 & H2);
    [done | lia |].
  exists b0, b1, b2.
  exists (if bool_decide (0 < l) then default [] v else []).
  unfold CommandProtocol.encode, BaseCommand.type.
  cbn [BaseCommand.cls BaseCommand.value BaseCommand.length].
  rewrite Hm. cbn [mbind outcome_bind].
  split; [|split; [done|split; [|split; [done|]]]].
  - case_bool_decide as Hpos.
    + destruct v as [v|]; [|simpl in Hl; lia].
      simpl in Hl. subst l. by rewrite pack_s_exact.
    + by rewrite app_nil_r.
  - rewrite H1, H2. pose proof (Z.div_mod l 256). lia.
  - rewrite len_app. change (len [b0; b1; b2]) with 3. f_equal.
    case_bool_decide as Hpos.
    + destruct v as [v|]; simpl in *; lia.
    + unfold len; simpl; lia.
Qed.

Lemma encode_layout_witness :
  ∃ b0 b1 b2 payload,
    CommandProtocol.encode
      (BaseCommand.mk CommandColor (Some [Byte.x01; Byte.x02; Byte.x03]) 3)
      = Ret ([b0; b1; b2] ++ payload)
    ∧ byte_to_Z b0 = 0x20
    ∧ 256 * byte_to_Z b1 + byte_to_Z b2 = 3
    ∧ payload = [Byte.x01; Byte.x02; Byte.x03]
    ∧ len ([b0; b1; b2] ++ payload) = 3 + 3.
Proof.
  apply (proj1 encode_layout
           (BaseCommand.mk CommandColor (Some [Byte.x01; Byte.x02; Byte.x03]) 3)).
  - vm_compute. split; discriminate.
  - vm_compute. discriminate.
  - reflexivity.
Defined.

(** C7. Whatever the registry, a type byte that is not registered decodes
    to "no command", without raising, whatever the payload. *)
Theorem decode_unregistered (registry : gmap Z command_class)
    (type_ : Z) (value : option bytes) :
  registry !! type_ = None →
  CommandProtocol.decode registry type_ value = Ret None.
Proof. intros Hnone. unfold CommandProtocol.decode. by rewrite Hnone. Qed.

Lemma decode_unregistered_witness :
  CommandProtocol.decode module_registry 0x98 (Some [Byte.x01; Byte.xff])
    = Ret None.
Proof. apply decode_unregistered. reflexivity. Defined.

(** A registered type byte decodes to an instance of the registered class
    around the payload as given. *)
Lemma decode_registered registry type_ c value :
  registry !! type_ = Some c →
  CommandProtocol.decode registry type_ value
    = Ret (Some (BaseCommand.mk c value (value_length value))).
Proof. intros Hc. unfold CommandProtocol.decode. by rewrite Hc. Qed.

(** C8. Registering a class whose type byte is already in the registry
    raises [ValueError] (the duplicate-registration error) and leaves the
    registry as it was: the type byte still maps to the class registered
    first. *)
Theorem register_duplicate (registry : gmap Z command_class)
    (command original : command_class) :
  registry !! class_type command = Some original →
  (CommandProtocol.register command registry).1 = Raise ValueError
  ∧ (CommandProtocol.register command registry).2 = registry
  ∧ (CommandProtocol.register command registry).2 !! class_type command
      = Some original.
Proof.
  intros Hreg. unfold CommandProtocol.register. rewrite Hreg. by simpl.
Qed.

Lemma register_duplicate_witness :
  (CommandProtocol.register (Class "CommandTest" 0x12) module_registry).1
    = Raise ValueError
  ∧ (CommandProtocol.register (Class "CommandTest" 0x12) module_registry).2
    = module_registry
  ∧ (CommandProtocol.register (Class "CommandTest" 0x12) module_registry).2
      !! 0x12 = Some CommandOn.
Proof.
  apply (register_duplicate module_registry (Class "CommandTest" 0x12) CommandOn).
  reflexivity.
Defined.

(** A fresh type byte registers. *)
Lemma register_fresh registry command :
  registry !! class_type command = None →
  CommandProtocol.register command registry
    = (Ret (), <[class_type command := command]> registry).
Proof. intros Hreg. unfold CommandProtocol.register. by rewrite Hreg. Qed.

Lemma eq_refl_hash hash (c : command) : BaseCommand.__eq__ hash c c = true.
Proof. unfold BaseCommand.__eq__. by apply bool_decide_eq_true. Qed.

Lemma from_rgb_Ret r g b c :
  CommandColor_.from_rgb r g b = Ret c →
  ∃ b0 b1 b2, c = BaseCommand.mk CommandColor (Some [b0; b1; b2]) 3
    ∧ byte_to_Z b0 = r ∧ byte_to_Z b1 = g ∧ byte_to_Z b2 = b.
Proof.
  unfold CommandColor_.from_rgb, struct.pack_BBB.
  destruct (byte_of_Z r) as [b0|] eqn:H0; [|done].
  destruct (byte_of_Z g) as [b1|] eqn:H1; [|done].
  destruct (byte_of_Z b) as [b2|] eqn:H2; [|done].
  cbn. intros [= <-]. exists b0, b1, b2.
  apply byte_of_Z_Some in H0, H1, H2. done.
Qed.

(** C4. Each of the four registered variants [On], [Off], [Color(r,g,b)]
    and [Unknown] survives the round trip: decoding the type byte and the
    payload of its encoding gives a command that [==] it (and is in fact
    the same value). *)
Theorem decode_encode_roundtrip (hash : Z * Z * option bytes → Z)
    (r g b : Z) (c : command) :
  Ret c ∈ [BaseCommand.__init__ CommandOn None;
           BaseCommand.__init__ CommandOff None;
           CommandColor_.from_rgb r g b;
           BaseCommand.__init__ CommandUnknown None] →
  ∃ frame type_ payload decoded,
    CommandProtocol.encode c = Ret frame
    ∧ frame_fields frame = Ret (type_, payload)
    ∧ CommandProtocol.decode module_registry type_ payload = Ret (Some decoded)
    ∧ BaseCommand.__eq__ hash decoded c = true
    ∧ decoded = c.
Proof.
  intros Hin.
  repeat (apply elem_of_cons in Hin as [Hin|Hin]);
    [| |symmetry in Hin; apply from_rgb_Ret in Hin as (b0 & b1 & b2 & Hin & _)|
     |by apply elem_of_nil in Hin].
  1,2,4: injection Hin as ->.
  4: subst c.
  all: eexists _, _, _, _; split_and!;
    [reflexivity | reflexivity | reflexivity | apply eq_refl_hash | reflexivity].
Qed.

Lemma decode_encode_roundtrip_witness :
  ∃ frame type_ payload decoded,
    CommandProtocol.encode
      (BaseCommand.mk CommandColor (Some [Byte.x0a; Byte.x14; Byte.x1e]) 3)
      = Ret frame
    ∧ frame_fields frame = Ret (type_, payload)
    ∧ CommandProtocol.decode module_registry type_ payload = Ret (Some decoded)
    ∧ BaseCommand.__eq__ (λ k, k.1.1 + k.1.2) decoded
        (BaseCommand.mk CommandColor (Some [Byte.x0a; Byte.x14; Byte.x1e]) 3)
      = true
    ∧ decoded = BaseCommand.mk CommandColor (Some [Byte.x0a; Byte.x14; Byte.x1e]) 3.
Proof.
  apply (decode_encode_roundtrip _ 10 20 30).
  do 2 apply list_elem_of_further. apply list_elem_of_here.
Defined.



(** ** Outcomes and fuel *)

Lemma bind_Ret_inv {A B} (m : outcome A) (k : A → outcome B) b :
  (m ≫= k) = Ret b → ∃ a, m = Ret a ∧ k a = Ret b.
Proof. destruct m as [a| |]; try done. intros Hk. by exists a. Qed.

Lemma bind_settled {A B} (m : outcome A) (k : A → outcome B) :
  (m ≫= k) ≠ OutOfFuel → m ≠ OutOfFuel.
Proof. by destruct m. Qed.

Lemma decode_decoded registry type_ value :
  CommandProtocol.decode registry type_ value = Ret (decoded registry type_ value).
Proof.
  unfold CommandProtocol.decode, decoded. by destruct (registry !! type_).
Qed.

Section Unfold.
Context {R : Type} `{!Reader R}.
Import TransportNames.
Implicit Types (self : CommandTransport.t R).

Lemma _retry_read_from_unfold fuel self n read_so_far :
  _retry_read_from fuel self n read_so_far =
    if bool_decide (len read_so_far < n) then
      match fuel with
      | O => OutOfFuel
      | S fuel' =>
          let '(chunk, reader) := read (_reader self) (n - len read_so_far) in
          let self := mk reader (_read_buffer self) in
          let read_so_far := read_so_far ++ chunk in
          if CommandTransport.at_eof self then Ret (read_so_far, self)
          else _retry_read_from fuel' self n read_so_far
      end
    else Ret (read_so_far, self).
Proof. by destruct fuel. Qed.

Lemma _await_buffered_unfold fuel self required_length :
  _await_buffered fuel self required_length =
    if bool_decide (0 < _bytes_missing self required_length) then
      match fuel with
      | O => OutOfFuel
      | S fuel' =>
          if CommandTransport.at_eof self then Ret (Eof self)
          else
            '(chunk, self) ← _retry_read fuel self (_bytes_missing self required_length);
            _await_buffered fuel'
              (mk (_reader self) (_read_buffer self ++ chunk)) required_length
      end
    else Ret (Buffered self).
Proof. by destruct fuel. Qed.

(** More fuel does not change the outcome of a loop that has finished. *)
Lemma _retry_read_from_mono fuel fuel' self n read_so_far :
  (fuel ≤ fuel')%nat →
  _retry_read_from fuel self n read_so_far ≠ OutOfFuel →
  _retry_read_from fuel' self n read_so_far
    = _retry_read_from fuel self n read_so_far.
Proof.
  revert fuel' self read_so_far.
  induction fuel as [|fuel IH]; intros fuel' self read_so_far Hle;
    rewrite (_retry_read_from_unfold fuel'), (_retry_read_from_unfold _ self).
  - by case_bool_decide.
  - case_bool_decide; [|done].
    destruct fuel' as [|fuel']; [lia|].
    destruct (read _ _) as [chunk reader]. cbn zeta.
    destruct (CommandTransport.at_eof _); [done|]. apply IH. lia.
Qed.

Lemma _await_buffered_mono fuel fuel' self required_length :
  (fuel ≤ fuel')%nat →
  _await_buffered fuel self required_length ≠ OutOfFuel →
  _await_buffered fuel' self required_length
    = _await_buffered fuel self required_length.
Proof.
  revert fuel' self.
  induction fuel as [|fuel IH]; intros fuel' self Hle;
    rewrite (_await_buffered_unfold fuel'), (_await_buffered_unfold _ self).
  - by case_bool_decide.
  - case_bool_decide; [|done].
    destruct fuel' as [|fuel']; [lia|].
    destruct (CommandTransport.at_eof self); [done|].
    intros Hs. pose proof (bind_settled _ _ Hs) as Hr.
    unfold _retry_read in *.
    rewrite (_retry_read_from_mono (S fuel) (S fuel')) by (done || lia).
    destruct (_retry_read_from (S fuel) _ _ _) as [[chunk self']| |]; try done.
    cbn in *. apply IH; [lia|done].
Qed.

Lemma _process_buffer_mono fuel fuel' registry self :
  (fuel ≤ fuel')%nat →
  _process_buffer fuel registry self ≠ OutOfFuel →
  _process_buffer fuel' registry self = _process_buffer fuel registry self.
Proof.
  intros Hle. unfold _process_buffer.
  destruct (struct.unpack_BH _) as [[type_ length]| |]; try done. cbn.
  case_bool_decide; [|done].
  intros Hs. pose proof (bind_settled _ _ Hs) as Hr.
  by rewrite (_await_buffered_mono fuel fuel').
Qed.

Lemma recv_mono fuel fuel' registry self :
  (fuel ≤ fuel')%nat →
  recv fuel registry self ≠ OutOfFuel →
  recv fuel' registry self = recv fuel registry self.
Proof.
  intros Hle. unfold recv.
  intros Hs. pose proof (bind_settled _ _ Hs) as Hr.
  rewrite (_await_buffered_mono fuel fuel') by done.
  destruct (_await_buffered fuel _ _) as [[self'|self']| |]; try done.
  cbn in *. by apply _process_buffer_mono.
Qed.

Lemma recv_times_mono fuel fuel' registry self k :
  (fuel ≤ fuel')%nat →
  recv_times fuel registry self k ≠ OutOfFuel →
  recv_times fuel' registry self k = recv_times fuel registry self k.
Proof.
  intros Hle. revert self. induction k as [|k IH]; intros self; [done|].
  cbn [recv_times]. intros Hs. pose proof (bind_settled _ _ Hs) as Hr.
  rewrite (recv_mono fuel fuel') by done.
  destruct (recv fuel _ _) as [[command self']| |]; try done.
  cbn in *. pose proof (bind_settled _ _ Hs) as Hr'.
  by rewrite IH.
Qed.

End Unfold.

(** ** The transport over a finite stream *)

Section FiniteStreams.
Context {R : Type} `{!Reader R} `{!FiniteStream R}.
Import TransportNames.
Implicit Types (self : CommandTransport.t R) (reader : R).

Lemma at_eof_true reader : at_eof reader = true ↔ pending reader = [].
Proof. rewrite at_eof_pending. apply bool_decide_eq_true. Qed.

Lemma at_eof_false reader : at_eof reader = false ↔ pending reader ≠ [].
Proof. rewrite at_eof_pending. apply bool_decide_eq_false. Qed.

(** [_retry_read] takes the first [n] pending bytes, or all of them when
    the stream ends before. *)
Lemma _retry_read_from_finite fuel self n read_so_far :
  len read_so_far ≤ n →
  (length (pending (_reader self)) < fuel)%nat →
  ∃ reader',
    _retry_read_from fuel self n read_so_far
      = Ret (read_so_far
               ++ take (Z.to_nat (n - len read_so_far)) (pending (_reader self)),
             mk reader' (_read_buffer self))
    ∧ pending reader'
      = drop (Z.to_nat (n - len read_so_far)) (pending (_reader self)).
Proof.
  revert self read_so_far.
  induction fuel as [|fuel IH]; intros [reader buffer] read_so_far Hacc Hfuel;
    [lia|].
  rewrite _retry_read_from_unfold. cbn [_reader _read_buffer] in *.
  case_bool_decide as Hlt.
  - pose proof (read_chunk reader (n - len read_so_far)) as Hchunk.
    pose proof (read_bound reader (n - len read_so_far)) as Hbound.
    pose proof (read_progress reader (n - len read_so_far)) as Hprogress.
    destruct (read reader (n - len read_so_far)) as [chunk reader'].
    cbn [fst snd] in *. cbn zeta.
    specialize (Hchunk ltac:(lia)). specialize (Hbound ltac:(lia)).
    specialize (Hprogress ltac:(lia)). unfold len in *.
    unfold CommandTransport.at_eof. cbn [_reader].
    destruct (at_eof reader') eqn:Heof.
    + apply at_eof_true in Heof. rewrite Heof, app_nil_r in Hchunk.
      exists reader'. rewrite Hchunk, Heof.
      rewrite take_ge, drop_ge by lia. done.
    + apply at_eof_false in Heof.
      assert (chunk ≠ []) as Hne.
      { apply Hprogress. rewrite Hchunk. by destruct chunk, (pending reader'). }
      assert (length chunk ≠ 0%nat) by (by destruct chunk).
      rewrite Hchunk in Hfuel. rewrite length_app in Hfuel.
      destruct (IH (mk reader' buffer) (read_so_far ++ chunk))
        as (reader'' & Hrun & Hrest); cbn [_reader].
      { rewrite length_app. lia. }
      { lia. }
      exists reader''. rewrite Hrun, Hrest, Hchunk. cbn [_reader _read_buffer].
      rewrite length_app.
      rewrite take_app_ge, drop_app_ge by lia.
      rewrite <- app_assoc.
      replace (Z.to_nat (n - Z.of_nat (length read_so_far + length chunk)))
        with (Z.to_nat (n - Z.of_nat (length read_so_far)) - length chunk)%nat
        by lia.
      done.
  - exists reader. replace (n - len read_so_far) with 0 by lia.
    by rewrite take_0, drop_0, app_nil_r.
Qed.

(** The waiting loop ends with the first bytes still missing moved from
    the stream to the buffer when the stream holds that many, and at end
    of stream, with all of them moved, when it does not. *)
Lemma _await_buffered_finite fuel self required_length :
  len (_read_buffer self) ≤ required_length →
  (length (pending (_reader self)) + 2 ≤ fuel)%nat →
  ∃ reader',
    pending reader'
      = drop (Z.to_nat (required_length - len (_read_buffer self)))
          (pending (_reader self))
    ∧ _await_buffered fuel self required_length
      = Ret ((if bool_decide
                   (len (pending (_reader self))
                      < required_length - len (_read_buffer self))
              then Eof else Buffered)
               (mk reader'
                  (_read_buffer self
                     ++ take (Z.to_nat (required_length - len (_read_buffer self)))
                          (pending (_reader self))))).
Proof.
  destruct self as [reader buffer]. cbn [_reader _read_buffer].
  intros Hbuf Hfuel.
  destruct fuel as [|[|fuel]]; [lia|lia|].
  rewrite _await_buffered_unfold. unfold _bytes_missing.
  cbn [_reader _read_buffer].
  case_bool_decide as Hmiss.
  - unfold CommandTransport.at_eof at 1. cbn [_reader].
    destruct (at_eof reader) eqn:Heof.
    + apply at_eof_true in Heof. exists reader. rewrite Heof.
      rewrite take_nil, drop_nil, app_nil_r.
      rewrite bool_decide_true by len_lia. done.
    + unfold _retry_read.
      destruct (_retry_read_from_finite (S (S fuel)) (mk reader buffer)
                  (required_length - len buffer) [])
        as (reader' & Hrun & Hrest); cbn [_reader].
      { len_lia. }
      { lia. }
      rewrite Hrun. change (len []) with 0 in *. rewrite Z.sub_0_r in *.
      cbn [mbind outcome_bind _reader _read_buffer app] in *.
      exists reader'. split; [done|].
      rewrite _await_buffered_unfold. unfold _bytes_missing.
      cbn [_reader _read_buffer]. rewrite len_app.
      unfold len. rewrite length_take.
      case_bool_decide as Hshort.
      * rewrite bool_decide_true by len_lia.
        unfold CommandTransport.at_eof. cbn [_reader].
        replace (at_eof reader') with true; [done|].
        symmetry. apply at_eof_true. rewrite Hrest.
        apply drop_ge. len_lia.
      * rewrite bool_decide_false by len_lia. done.
  - exists reader. replace (required_length - len buffer) with 0 by lia.
    rewrite take_0, drop_0, app_nil_r.
    rewrite bool_decide_false by (pose proof (len_nonneg (pending reader)); lia).
    done.
Qed.

Lemma transport_at_eof reader buffer :
  pending reader = [] → CommandTransport.at_eof (mk reader buffer) = true.
Proof. intros Hp. unfold CommandTransport.at_eof. by apply at_eof_true. Qed.

(** Fewer than 3 bytes before the end of the stream: no command, and the
    bytes stay in the buffer. *)
Lemma recv_truncated_header fuel registry reader :
  len (pending reader) < 3 →
  (length (pending reader) + 2 ≤ fuel)%nat →
  ∃ reader', pending reader' = []
    ∧ recv fuel registry (CommandTransport.__init__ reader)
      = Ret (None, mk reader' (pending reader)).
Proof.
  intros Hshort Hfuel. unfold CommandTransport.recv, CommandTransport.__init__.
  destruct (_await_buffered_finite fuel (mk reader []) COMMAND_HEADER_LENGTH)
    as (reader' & Hrest & Hrun); [len_lia|done|].
  cbn [_reader _read_buffer app] in *. change (len []) with 0 in *.
  unfold COMMAND_HEADER_LENGTH in *. rewrite Z.sub_0_r in *.
  rewrite Hrun, bool_decide_true by done. cbn.
  exists reader'. rewrite Hrest, take_ge, drop_ge by len_lia. done.
Qed.

(** A whole header, then fewer payload bytes than it announces before the
    end of the stream: no command, and the bytes stay in the buffer. *)
Lemma recv_truncated_payload fuel registry reader header partial type_ length :
  pending reader = header ++ partial →
  struct.unpack_BH header = Ret (type_, length) →
  len partial < length →
  (List.length (pending reader) + 2 ≤ fuel)%nat →
  ∃ reader', pending reader' = []
    ∧ recv fuel registry (CommandTransport.__init__ reader)
      = Ret (None, mk reader' (pending reader)).
Proof.
  intros Hp Hun Hshort Hfuel.
  pose proof (unpack_BH_range _ _ _ Hun) as (Hh & _ & _).
  unfold CommandTransport.recv, CommandTransport.__init__.
  destruct (_await_buffered_finite fuel (mk reader []) COMMAND_HEADER_LENGTH)
    as (reader1 & Hrest1 & Hrun1); [len_lia|done|].
  cbn [_reader _read_buffer app] in *. change (len []) with 0 in *.
  unfold COMMAND_HEADER_LENGTH in *. rewrite Z.sub_0_r in *.
  rewrite Hrun1, bool_decide_false by (rewrite Hp; len_lia).
  rewrite Hp, take_app_length', drop_app_length' in * by len_lia.
  cbn [mbind outcome_bind]. unfold CommandTransport._process_buffer.
  cbn [_read_buffer]. rewrite Hun. cbn [mbind outcome_bind].
  rewrite bool_decide_true by len_lia.
  destruct (_await_buffered_finite fuel (mk reader1 header)
              (length + COMMAND_HEADER_LENGTH))
    as (reader2 & Hrest2 & Hrun2); cbn [_reader _read_buffer].
  { unfold COMMAND_HEADER_LENGTH. len_lia. }
  { rewrite Hrest1. rewrite length_app in Hfuel. lia. }
  cbn [_reader _read_buffer] in *. unfold COMMAND_HEADER_LENGTH in *.
  rewrite Hrun2, Hrest1, bool_decide_true by len_lia.
  cbn [mbind outcome_bind]. exists reader2.
  rewrite Hrest2, Hrest1, take_ge, drop_ge by len_lia. done.
Qed.

(** A whole frame at the head of the stream: [recv] consumes exactly the
    frame, leaves the buffer empty and returns what [decode] makes of the
    frame's type byte and payload. *)
Lemma recv_frame fuel registry reader header payload rest type_ :
  pending reader = header ++ payload ++ rest →
  struct.unpack_BH header = Ret (type_, len payload) →
  (length (pending reader) + 2 ≤ fuel)%nat →
  ∃ reader', pending reader' = rest
    ∧ recv fuel registry (CommandTransport.__init__ reader)
      = Ret (decoded registry type_ (wire_value payload),
             CommandTransport.__init__ reader').
Proof.
  intros Hp Hun Hfuel.
  pose proof (unpack_BH_range _ _ _ Hun) as (Hh & _ & _).
  unfold CommandTransport.recv, CommandTransport.__init__.
  destruct (_await_buffered_finite fuel (mk reader []) COMMAND_HEADER_LENGTH)
    as (reader1 & Hrest1 & Hrun1); [len_lia|done|].
  cbn [_reader _read_buffer app] in *. change (len []) with 0 in *.
  unfold COMMAND_HEADER_LENGTH in *. rewrite Z.sub_0_r in *.
  rewrite Hrun1, bool_decide_false by (rewrite Hp; len_lia).
  rewrite Hp, take_app_length', drop_app_length' in * by len_lia.
  cbn [mbind outcome_bind]. unfold CommandTransport._process_buffer.
  cbn [_read_buffer]. rewrite Hun. cbn [mbind outcome_bind].
  clear Hrun1. unfold wire_value, CommandTransport._consume_frame.
  case_bool_decide as Hpos.
  - destruct (_await_buffered_finite fuel (mk reader1 header)
                (len payload + COMMAND_HEADER_LENGTH))
      as (reader2 & Hrest2 & Hrun2); cbn [_reader _read_buffer].
    { unfold COMMAND_HEADER_LENGTH. len_lia. }
    { rewrite Hrest1. rewrite length_app in Hfuel. lia. }
    cbn [_reader _read_buffer] in *. unfold COMMAND_HEADER_LENGTH in *.
    rewrite Hrun2, Hrest1, bool_decide_false by len_lia.
    replace (len payload + 3 - len header) with (len payload) in * by lia.
    rewrite Hrest1 in Hrest2.
    rewrite take_app_length', drop_app_length' in * by len_lia.
    cbn [mbind outcome_bind]. unfold struct.unpack_from_s.
    rewrite bool_decide_false by len_lia.
    cbn [mbind outcome_bind _reader _read_buffer].
    rewrite drop_app_length', take_ge by len_lia.
    rewrite decode_decoded. cbn [mbind outcome_bind].
    rewrite slice_from_nonneg, drop_ge by len_lia.
    by exists reader2.
  - assert (payload = []) as -> by (apply len_nil_inv; len_lia).
    cbn [_reader _read_buffer app] in *.
    rewrite decode_decoded. cbn [mbind outcome_bind].
    change (len []) with 0. rewrite slice_from_nonneg, drop_ge by len_lia.
    by exists reader1.
Qed.

End FiniteStreams.

(** ** The readers of the test suite are finite streams *)

Lemma DefaultReader_read_chunk r n :
  0 < n →
  DefaultReader._data r
    = (DefaultReader.read r n).1 ++ DefaultReader._data (DefaultReader.read r n).2.
Proof.
  intros Hn. unfold DefaultReader.read. cbn.
  rewrite slice_to_nonneg, slice_from_nonneg by lia. by rewrite take_drop.
Qed.

Lemma DefaultReader_read_bound r n : 0 < n → len (DefaultReader.read r n).1 ≤ n.
Proof.
  intros Hn. unfold DefaultReader.read. cbn.
  rewrite slice_to_nonneg by lia. len_lia.
Qed.

Lemma DefaultReader_read_progress r n :
  0 < n → DefaultReader._data r ≠ [] → (DefaultReader.read r n).1 ≠ [].
Proof.
  intros Hn. unfold DefaultReader.read. cbn.
  rewrite slice_to_nonneg by lia.
  destruct (DefaultReader._data r) as [|b data]; [done|].
  intros _. destruct (Z.to_nat n) eqn:Hk; [lia|done].
Qed.

Lemma DefaultReader_at_eof r :
  DefaultReader.at_eof r = bool_decide (DefaultReader._data r = []).
Proof.
  unfold DefaultReader.at_eof. apply bool_decide_ext.
  split; [apply len_nil_inv | by intros ->].
Qed.

#[global] Instance DefaultReader_FiniteStream : FiniteStream DefaultReader.t :=
  {| pending := DefaultReader._data;
     read_chunk := DefaultReader_read_chunk;
     read_bound := DefaultReader_read_bound;
     read_progress := DefaultReader_read_progress;
     at_eof_pending := DefaultReader_at_eof |}.

Lemma OneByteAtATimeReader_read_chunk r n :
  0 < n →
  DefaultReader._data (OneByteAtATimeReader.super r)
    = (OneByteAtATimeReader.read r n).1
        ++ DefaultReader._data
             (OneByteAtATimeReader.super (OneByteAtATimeReader.read r n).2).
Proof. intros _. apply (DefaultReader_read_chunk _ 1). lia. Qed.

Lemma OneByteAtATimeReader_read_bound r n :
  0 < n → len (OneByteAtATimeReader.read r n).1 ≤ n.
Proof.
  intros Hn.
  pose proof (DefaultReader_read_bound (OneByteAtATimeReader.super r) 1).
  unfold OneByteAtATimeReader.read, DefaultReader.read in *. cbn in *. lia.
Qed.

Lemma OneByteAtATimeReader_read_progress r n :
  0 < n → DefaultReader._data (OneByteAtATimeReader.super r) ≠ [] →
  (OneByteAtATimeReader.read r n).1 ≠ [].
Proof. intros _. apply (DefaultReader_read_progress _ 1). lia. Qed.

Lemma OneByteAtATimeReader_at_eof r :
  OneByteAtATimeReader.at_eof r
    = bool_decide (DefaultReader._data (OneByteAtATimeReader.super r) = []).
Proof. apply DefaultReader_at_eof. Qed.

#[global] Instance OneByteAtATimeReader_FiniteStream
    : FiniteStream OneByteAtATimeReader.t :=
  {| pending := λ r, DefaultReader._data (OneByteAtATimeReader.super r);
     read_chunk := OneByteAtATimeReader_read_chunk;
     read_bound := OneByteAtATimeReader_read_bound;
     read_progress := OneByteAtATimeReader_read_progress;
     at_eof_pending := OneByteAtATimeReader_at_eof |}.

(** ** Receiving *)

(** What a registered command decodes to after its trip over the wire. *)
Lemma decoded_encoded registry c payload :
  registry !! BaseCommand.type c = Some (BaseCommand.cls c) →
  len payload = BaseCommand.length c →
  (0 < BaseCommand.length c →
   struct.pack_s (BaseCommand.length c) (BaseCommand.value c) = Ret payload) →
  ∃ command,
    decoded registry (BaseCommand.type c) (wire_value payload) = Some command
    ∧ BaseCommand.cls command = BaseCommand.cls c
    ∧ BaseCommand.length command = BaseCommand.length c
    ∧ (BaseCommand.length c = value_length (BaseCommand.value c) →
       BaseCommand.value c ≠ Some [] → command = c).
Proof.
  intros Hreg Hlen Hpack. unfold decoded. rewrite Hreg. cbn.
  eexists. split; [reflexivity|]. cbn.
  assert (value_length (wire_value payload) = BaseCommand.length c) as Hwire.
  { unfold wire_value. case_bool_decide; cbn; [done|].
    pose proof (len_nonneg payload). lia. }
  split_and!; [done|done|].
  intros Hwf Hne. destruct c as [k v l]. cbn in *. rewrite Hwire. f_equal.
  unfold wire_value. case_bool_decide as Hpos.
  - rewrite Hlen in Hpos. specialize (Hpack Hpos).
    destruct v as [v|]; [|done]. cbn in Hwf. rewrite Hwf in Hpack.
    rewrite pack_s_exact in Hpack. congruence.
  - destruct v as [v|]; [|done]. cbn in Hwf.
    assert (v = []) as -> by (apply len_nil_inv; len_lia). done.
Qed.

(** C1. For a registered command [c], a fresh transport fed the bytes of
    [encode(c)] one byte per [read] call and a fresh transport fed them as
    one chunk return the same command from [recv()], each leaving an empty
    buffer and a stream at its end; the command has the class and the length
    of [c], and is [c] itself when [c] is as the data model has it. *)
Theorem recv_one_byte_at_a_time_eq_single_chunk
    (registry : gmap Z command_class) (c : command) (frame : bytes) (fuel : nat) :
  registry !! BaseCommand.type c = Some (BaseCommand.cls c) →
  CommandProtocol.encode c = Ret frame →
  (length frame + 2 ≤ fuel)%nat →
  ∃ command,
    CommandTransport.recv fuel registry
      (CommandTransport.__init__ (OneByteAtATimeReader.mk (DefaultReader.mk frame)))
    = Ret (Some command,
           CommandTransport.__init__ (OneByteAtATimeReader.mk (DefaultReader.mk [])))
    ∧ CommandTransport.recv fuel registry
        (CommandTransport.__init__ (DefaultReader.mk frame))
      = Ret (Some command, CommandTransport.__init__ (DefaultReader.mk []))
    ∧ BaseCommand.cls command = BaseCommand.cls c
    ∧ BaseCommand.length command = BaseCommand.length c
    ∧ (BaseCommand.length c = value_length (BaseCommand.value c) →
       BaseCommand.value c ≠ Some [] → command = c).
Proof.
  intros Hreg Henc Hfuel.
  apply encode_Ret_inv in Henc as (header & payload & -> & Hun & Hlen & Hpack).
  destruct (decoded_encoded registry c payload Hreg Hlen Hpack)
    as (command & Hdec & Hcls & Hl & Hsame).
  rewrite <- Hlen in Hun. exists command.
  destruct (recv_frame fuel registry
              (OneByteAtATimeReader.mk (DefaultReader.mk (header ++ payload)))
              header payload [] (BaseCommand.type c))
    as ([[data1]] & Hrest1 & Hrun1); [by rewrite app_nil_r|done|done|].
  destruct (recv_frame fuel registry (DefaultReader.mk (header ++ payload))
              header payload [] (BaseCommand.type c))
    as ([data2] & Hrest2 & Hrun2); [by rewrite app_nil_r|done|done|].
  cbn in Hrest1, Hrest2. subst data1 data2.
  rewrite Hrun1, Hrun2, Hdec. done.
Qed.

Lemma recv_one_byte_at_a_time_eq_single_chunk_witness :
  ∃ command,
    CommandTransport.recv 8 module_registry
      (CommandTransport.__init__
         (OneByteAtATimeReader.mk
            (DefaultReader.mk
               [Byte.x20; Byte.x00; Byte.x03; Byte.x01; Byte.x02; Byte.x03])))
    = Ret (Some command,
           CommandTransport.__init__ (OneByteAtATimeReader.mk (DefaultReader.mk [])))
    ∧ CommandTransport.recv 8 module_registry
        (CommandTransport.__init__
           (DefaultReader.mk
              [Byte.x20; Byte.x00; Byte.x03; Byte.x01; Byte.x02; Byte.x03]))
      = Ret (Some command, CommandTransport.__init__ (DefaultReader.mk []))
    ∧ BaseCommand.cls command = CommandColor
    ∧ BaseCommand.length command = 3
    ∧ (3 = value_length (Some [Byte.x01; Byte.x02; Byte.x03]) →
       Some [Byte.x01; Byte.x02; Byte.x03] ≠ Some [] →
       command
       = BaseCommand.mk CommandColor (Some [Byte.x01; Byte.x02; Byte.x03]) 3).
Proof.
  apply (recv_one_byte_at_a_time_eq_single_chunk module_registry
           (BaseCommand.mk CommandColor (Some [Byte.x01; Byte.x02; Byte.x03]) 3)
           [Byte.x20; Byte.x00; Byte.x03; Byte.x01; Byte.x02; Byte.x03] 8).
  - reflexivity.
  - reflexivity.
  - simpl. lia.
Defined.

(** C2. When the stream ends after fewer than 3 bytes, or after a whole
    3-byte header and fewer payload bytes than the header announces,
    [recv()] returns "no command" without raising and [at_eof()] is true
    afterwards, however the stream chunks its bytes. *)
Theorem recv_truncated {R : Type} `{!Reader R} `{!FiniteStream R}
    (registry : gmap Z command_class) (reader : R) (fuel : nat) :
  (len (pending reader) < COMMAND_HEADER_LENGTH
   ∨ ∃ header partial type_ length,
       pending reader = header ++ partial
       ∧ struct.unpack_BH header = Ret (type_, length)
       ∧ len partial < length) →
  (length (pending reader) + 2 ≤ fuel)%nat →
  ∃ transport,
    CommandTransport.recv fuel registry (CommandTransport.__init__ reader)
      = Ret (None, transport)
    ∧ CommandTransport.at_eof transport = true.
Proof.
  intros [Hshort|(header & partial & type_ & length & Hp & Hun & Hshort)] Hfuel.
  - destruct (recv_truncated_header fuel registry reader Hshort Hfuel)
      as (reader' & Hrest & Hrun).
    eexists. split; [done|]. by apply transport_at_eof.
  - destruct (recv_truncated_payload fuel registry reader _ _ _ _ Hp Hun Hshort Hfuel)
      as (reader' & Hrest & Hrun).
    eexists. split; [done|]. by apply transport_at_eof.
Qed.

Lemma recv_truncated_witness :
  ∃ transport,
    CommandTransport.recv 7 module_registry
      (CommandTransport.__init__
         (OneByteAtATimeReader.mk
            (DefaultReader.mk [Byte.x20; Byte.x00; Byte.x03; Byte.x01; Byte.x02])))
      = Ret (None, transport)
    ∧ CommandTransport.at_eof transport = true.
Proof.
  apply (recv_truncated module_registry
           (OneByteAtATimeReader.mk
              (DefaultReader.mk [Byte.x20; Byte.x00; Byte.x03; Byte.x01; Byte.x02]))
           7).
  - right. exists [Byte.x20; Byte.x00; Byte.x03], [Byte.x01; Byte.x02], 0x20, 3.
    split; [reflexivity|]. split; [reflexivity|]. reflexivity.
  - simpl. lia.
Defined.

(** C3. The encodings of [Color(10,20,30)], [On], [Off] and
    [Color(40,50,60)] are the 18 bytes
    [20 00 03 0a 14 1e 12 00 00 13 00 00 20 00 03 28 32 3c]; served one byte
    per [read] call to one transport, they make five successive [recv()]
    calls return [Color] with payload [0a 14 1e] (whose [rgb] is (10,20,30)),
    [On], [Off], [Color] with payload [28 32 3c] (whose [rgb] is (40,50,60)),
    in this order, and then "no command", with the buffer empty and the
    stream at its end. *)
Theorem recv_several_commands (fuel : nat) :
  (3 ≤ fuel)%nat →
  several_commands
    = Ret [BaseCommand.mk CommandColor (Some [Byte.x0a; Byte.x14; Byte.x1e]) 3;
           BaseCommand.mk CommandOn None 0;
           BaseCommand.mk CommandOff None 0;
           BaseCommand.mk CommandColor (Some [Byte.x28; Byte.x32; Byte.x3c]) 3]
  ∧ (commands ← several_commands; encode_all commands [])
    = Ret [Byte.x20; Byte.x00; Byte.x03; Byte.x0a; Byte.x14; Byte.x1e;
           Byte.x12; Byte.x00; Byte.x00; Byte.x13; Byte.x00; Byte.x00;
           Byte.x20; Byte.x00; Byte.x03; Byte.x28; Byte.x32; Byte.x3c]
  ∧ CommandTransport.recv_times fuel module_registry
      (CommandTransport.__init__
         (OneByteAtATimeReader.mk
            (DefaultReader.mk
               [Byte.x20; Byte.x00; Byte.x03; Byte.x0a; Byte.x14; Byte.x1e;
                Byte.x12; Byte.x00; Byte.x00; Byte.x13; Byte.x00; Byte.x00;
                Byte.x20; Byte.x00; Byte.x03; Byte.x28; Byte.x32; Byte.x3c])))
      5
    = Ret ([Some (BaseCommand.mk CommandColor
                    (Some [Byte.x0a; Byte.x14; Byte.x1e]) 3);
            Some (BaseCommand.mk CommandOn None 0);
            Some (BaseCommand.mk CommandOff None 0);
            Some (BaseCommand.mk CommandColor
                    (Some [Byte.x28; Byte.x32; Byte.x3c]) 3);
            None],
           CommandTransport.__init__
             (OneByteAtATimeReader.mk (DefaultReader.mk [])))
  ∧ CommandColor_.rgb
      (BaseCommand.mk CommandColor (Some [Byte.x0a; Byte.x14; Byte.x1e]) 3)
    = Ret (10, 20, 30)
  ∧ CommandColor_.rgb
      (BaseCommand.mk CommandColor (Some [Byte.x28; Byte.x32; Byte.x3c]) 3)
    = Ret (40, 50, 60).
Proof.
  intros Hfuel.
  assert (CommandTransport.recv_times 3 module_registry
            (CommandTransport.__init__
               (OneByteAtATimeReader.mk
                  (DefaultReader.mk
                     [Byte.x20; Byte.x00; Byte.x03; Byte.x0a; Byte.x14; Byte.x1e;
                      Byte.x12; Byte.x00; Byte.x00; Byte.x13; Byte.x00; Byte.x00;
                      Byte.x20; Byte.x00; Byte.x03; Byte.x28; Byte.x32; Byte.x3c])))
            5
          = Ret ([Some (BaseCommand.mk CommandColor
                          (Some [Byte.x0a; Byte.x14; Byte.x1e]) 3);
                  Some (BaseCommand.mk CommandOn None 0);
                  Some (BaseCommand.mk CommandOff None 0);
                  Some (BaseCommand.mk CommandColor
                          (Some [Byte.x28; Byte.x32; Byte.x3c]) 3);
                  None],
                 CommandTransport.__init__
                   (OneByteAtATimeReader.mk (DefaultReader.mk []))))
    as Hrun by (vm_compute; reflexivity).
  split; [vm_compute; reflexivity|]. split; [vm_compute; reflexivity|].
  split; [|split; vm_compute; reflexivity].
  rewrite (recv_times_mono 3 fuel); [exact Hrun|exact Hfuel|].
  rewrite Hrun. discriminate.
Qed.

Lemma recv_several_commands_witness :
  several_commands
    = Ret [BaseCommand.mk CommandColor (Some [Byte.x0a; Byte.x14; Byte.x1e]) 3;
           BaseCommand.mk CommandOn None 0;
           BaseCommand.mk CommandOff None 0;
           BaseCommand.mk CommandColor (Some [Byte.x28; Byte.x32; Byte.x3c]) 3]
  ∧ (commands ← several_commands; encode_all commands [])
    = Ret [Byte.x20; Byte.x00; Byte.x03; Byte.x0a; Byte.x14; Byte.x1e;
           Byte.x12; Byte.x00; Byte.x00; Byte.x13; Byte.x00; Byte.x00;
           Byte.x20; Byte.x00; Byte.x03; Byte.x28; Byte.x32; Byte.x3c]
  ∧ CommandTransport.recv_times 4 module_registry
      (CommandTransport.__init__
         (OneByteAtATimeReader.mk
            (DefaultReader.mk
               [Byte.x20; Byte.x00; Byte.x03; Byte.x0a; Byte.x14; Byte.x1e;
                Byte.x12; Byte.x00; Byte.x00; Byte.x13; Byte.x00; Byte.x00;
                Byte.x20; Byte.x00; Byte.x03; Byte.x28; Byte.x32; Byte.x3c])))
      5
    = Ret ([Some (BaseCommand.mk CommandColor
                    (Some [Byte.x0a; Byte.x14; Byte.x1e]) 3);
            Some (BaseCommand.mk CommandOn None 0);
            Some (BaseCommand.mk CommandOff None 0);
            Some (BaseCommand.mk CommandColor
                    (Some [Byte.x28; Byte.x32; Byte.x3c]) 3);
            None],
           CommandTransport.__init__
             (OneByteAtATimeReader.mk (DefaultReader.mk [])))
  ∧ CommandColor_.rgb
      (BaseCommand.mk CommandColor (Some [Byte.x0a; Byte.x14; Byte.x1e]) 3)
    = Ret (10, 20, 30)
  ∧ CommandColor_.rgb
      (BaseCommand.mk CommandColor (Some [Byte.x28; Byte.x32; Byte.x3c]) 3)
    = Ret (40, 50, 60).
Proof. apply (recv_several_commands 4). lia. Defined.

(** ** The transport over any reader that returns at most what is asked *)

Section BoundedReads.
Context {R : Type} `{!Reader R}.
Import TransportNames.
Implicit Types (self : CommandTransport.t R) (reader : R).

Hypothesis read_at_most : ∀ reader n, 0 < n → len (read reader n).1 ≤ n.

(** [_retry_read] never returns more than it was asked for, leaves the
    buffer alone, and returns less only at the end of the stream. *)
Lemma _retry_read_from_at_most fuel self n read_so_far :
  len read_so_far ≤ n →
  match _retry_read_from fuel self n read_so_far with
  | Ret (chunk, self') =>
      len chunk ≤ n
      ∧ _read_buffer self' = _read_buffer self
      ∧ (len chunk < n → CommandTransport.at_eof self' = true)
  | Raise _ => False
  | OutOfFuel => True
  end.
Proof.
  revert self read_so_far.
  induction fuel as [|fuel IH]; intros self read_so_far Hacc;
    rewrite _retry_read_from_unfold; case_bool_decide as Hlt;
    [done|split_and!; [done|done|lia]| |split_and!; [done|done|lia]].
  pose proof (read_at_most (_reader self) (n - len read_so_far)) as Hbound.
  destruct (read _ _) as [chunk reader']. cbn [fst] in Hbound. cbn zeta.
  destruct (CommandTransport.at_eof _) eqn:Heof.
  - split_and!; [len_lia|done|done].
  - apply (IH (mk reader' (_read_buffer self))). len_lia.
Qed.

(** The waiting loop never raises and never overshoots. *)
Lemma _await_buffered_exact fuel self required_length :
  len (_read_buffer self) ≤ required_length →
  match _await_buffered fuel self required_length with
  | Ret (Buffered self') => len (_read_buffer self') = required_length
  | Ret (Eof self') =>
      CommandTransport.at_eof self' = true
      ∧ len (_read_buffer self') < required_length
  | Raise _ => False
  | OutOfFuel => True
  end.
Proof.
  revert self.
  induction fuel as [|fuel IH]; intros self Hbuf;
    rewrite _await_buffered_unfold; unfold _bytes_missing;
    case_bool_decide as Hmiss; [done|lia| |lia].
  destruct (CommandTransport.at_eof self) eqn:Heof; [split; [done|lia]|].
  unfold _retry_read.
  pose proof (_retry_read_from_at_most (S fuel) self
                (required_length - len (_read_buffer self)) []) as Hretry.
  specialize (Hretry ltac:(len_lia)).
  destruct (_retry_read_from _ _ _ _) as [[chunk self']| |]; [|done|done].
  destruct Hretry as (Hchunk & Hsame & _).
  cbn [mbind outcome_bind]. apply IH. cbn [_read_buffer].
  rewrite Hsame, len_app. lia.
Qed.

Lemma _process_buffer_safe fuel registry self :
  len (_read_buffer self) = COMMAND_HEADER_LENGTH →
  match _process_buffer fuel registry self with
  | Ret (command, self') =>
      _read_buffer self' = []
      ∨ (command = None ∧ CommandTransport.at_eof self' = true)
  | Raise _ => False
  | OutOfFuel => True
  end.
Proof.
  intros Hbuf. unfold CommandTransport._process_buffer.
  destruct (unpack_BH_three _ Hbuf) as (type_ & length & Hun). rewrite Hun.
  apply unpack_BH_range in Hun as (_ & _ & Hlength).
  cbn [mbind outcome_bind]. unfold CommandTransport._consume_frame.
  case_bool_decide as Hpos.
  - pose proof (_await_buffered_exact fuel self (length + COMMAND_HEADER_LENGTH))
      as Hawait.
    destruct (_await_buffered _ _ _) as [[self'|self']| |]; cbn [mbind outcome_bind].
    + right. split; [done|]. apply Hawait. lia.
    + specialize (Hawait ltac:(lia)).
      unfold struct.unpack_from_s. rewrite bool_decide_false by lia.
      cbn [mbind outcome_bind]. rewrite decode_decoded. cbn [mbind outcome_bind].
      left. cbn [_read_buffer].
      rewrite slice_from_nonneg, drop_ge by len_lia. done.
    + apply Hawait. lia.
    + done.
  - rewrite decode_decoded. cbn [mbind outcome_bind]. left. cbn [_read_buffer].
    rewrite slice_from_nonneg, drop_ge by len_lia. done.
Qed.

Lemma recv_safe fuel registry self :
  _read_buffer self = [] →
  match recv fuel registry self with
  | Ret (command, self') =>
      _read_buffer self' = []
      ∨ (command = None ∧ CommandTransport.at_eof self' = true)
  | Raise _ => False
  | OutOfFuel => True
  end.
Proof.
  intros Hbuf. unfold CommandTransport.recv.
  pose proof (_await_buffered_exact fuel self COMMAND_HEADER_LENGTH) as Hawait.
  rewrite Hbuf in Hawait. specialize (Hawait ltac:(by vm_compute)).
  destruct (_await_buffered _ _ _) as [[self'|self']| |]; cbn [mbind outcome_bind];
    [right; split; [done|apply Hawait]|by apply _process_buffer_safe|done|done].
Qed.

(** A reader makes progress when every [read] that does not leave the
    stream at its end returns some byte. *)
Hypothesis read_some :
  ∀ reader n, 0 < n → at_eof (read reader n).2 = false → (read reader n).1 ≠ [].

Lemma _retry_read_from_returns fuel self n read_so_far :
  (Z.to_nat (n - len read_so_far) ≤ fuel)%nat →
  _retry_read_from fuel self n read_so_far ≠ OutOfFuel.
Proof.
  revert self read_so_far.
  induction fuel as [|fuel IH]; intros self read_so_far Hfuel;
    rewrite _retry_read_from_unfold; case_bool_decide as Hlt; [lia|done| |done].
  pose proof (read_some (_reader self) (n - len read_so_far)) as Hsome.
  destruct (read _ _) as [chunk reader']. cbn [fst snd] in Hsome. cbn zeta.
  unfold CommandTransport.at_eof at 1. cbn [_reader].
  destruct (at_eof reader') eqn:Heof; [done|].
  apply IH. specialize (Hsome ltac:(lia) eq_refl).
  destruct chunk; [done|]. len_lia.
Qed.

Lemma _await_buffered_returns fuel self required_length :
  len (_read_buffer self) ≤ required_length →
  (2 ≤ fuel)%nat →
  (Z.to_nat (required_length - len (_read_buffer self)) ≤ fuel)%nat →
  _await_buffered fuel self required_length ≠ OutOfFuel.
Proof.
  intros Hbuf H2 Hfuel. destruct fuel as [|[|fuel]]; [lia|lia|].
  rewrite _await_buffered_unfold. unfold _bytes_missing.
  case_bool_decide as Hmiss; [|done].
  destruct (CommandTransport.at_eof self) eqn:Heof; [done|].
  unfold _retry_read.
  pose proof (_retry_read_from_at_most (S (S fuel)) self
                (required_length - len (_read_buffer self)) []) as Hretry.
  pose proof (_retry_read_from_returns (S (S fuel)) self
                (required_length - len (_read_buffer self)) []) as Hret.
  specialize (Hretry ltac:(len_lia)).
  specialize (Hret ltac:(change (len []) with 0; lia)).
  destruct (_retry_read_from _ _ _ _) as [[chunk self']| |]; [|done|done].
  destruct Hretry as (Hchunk & Hsame & Hshort).
  cbn [mbind outcome_bind]. rewrite _await_buffered_unfold.
  unfold _bytes_missing. cbn [_read_buffer _reader].
  case_bool_decide as Hmiss'; [|done].
  replace (CommandTransport.at_eof (mk (_reader self') (_read_buffer self' ++ chunk)))
    with (CommandTransport.at_eof self') by done.
  rewrite Hshort; [done|]. rewrite Hsame, len_app in Hmiss'. lia.
Qed.

Lemma recv_returns fuel registry self :
  _read_buffer self = [] →
  65535 ≤ Z.of_nat fuel →
  recv fuel registry self ≠ OutOfFuel.
Proof.
  intros Hbuf Hfuel. unfold CommandTransport.recv.
  pose proof (_await_buffered_exact fuel self COMMAND_HEADER_LENGTH) as Hexact.
  pose proof (_await_buffered_returns fuel self COMMAND_HEADER_LENGTH) as Hret.
  rewrite Hbuf in Hexact, Hret. change (len []) with 0 in *.
  unfold COMMAND_HEADER_LENGTH in *.
  specialize (Hexact ltac:(lia)). specialize (Hret ltac:(lia) ltac:(lia) ltac:(lia)).
  destruct (_await_buffered _ _ _) as [[self1|self1]| |]; try done.
  cbn [mbind outcome_bind]. unfold CommandTransport._process_buffer.
  destruct (unpack_BH_three _ Hexact) as (type_ & length & Hun). rewrite Hun.
  apply unpack_BH_range in Hun as (_ & _ & Hlength).
  cbn [mbind outcome_bind]. unfold CommandTransport._consume_frame.
  rewrite !decode_decoded. case_bool_decide as Hpos; [|done].
  pose proof (_await_buffered_exact fuel self1 (length + COMMAND_HEADER_LENGTH))
    as Hexact2.
  pose proof (_await_buffered_returns fuel self1 (length + COMMAND_HEADER_LENGTH))
    as Hret2.
  unfold COMMAND_HEADER_LENGTH in *.
  specialize (Hexact2 ltac:(lia)).
  specialize (Hret2 ltac:(lia) ltac:(lia) ltac:(lia)).
  destruct (_await_buffered _ _ _) as [[self2|self2]| |]; try done.
  cbn [mbind outcome_bind]. unfold struct.unpack_from_s.
  rewrite bool_decide_false by lia. cbn [mbind outcome_bind].
  by rewrite decode_decoded.
Qed.

End BoundedReads.

(** The silent peer keeps [recv] waiting for ever. *)
Lemma recv_silent_never_returns fuel registry :
  CommandTransport.recv fuel registry
    (CommandTransport.__init__ (tt : SilentReader.t)) = OutOfFuel.
Proof.
  assert (∀ k n, 0 < n →
            CommandTransport._retry_read_from k
              (CommandTransport.mk (tt : SilentReader.t) []) n [] = OutOfFuel)
    as Hretry.
  { induction k as [|k IH]; intros n Hn; rewrite _retry_read_from_unfold;
      rewrite bool_decide_true by (by change (len []) with 0); [done|].
    cbn. by apply IH. }
  unfold CommandTransport.recv, CommandTransport.__init__.
  rewrite _await_buffered_unfold.
  rewrite bool_decide_true by (by vm_compute).
  destruct fuel as [|fuel]; [done|]. cbn [CommandTransport.at_eof].
  unfold CommandTransport._retry_read. cbn.
  rewrite Hretry by (by vm_compute). done.
Qed.

(** As stated, the claim that [recv()] is total and never raises over every
    reader that returns at most what it is asked fails twice.  Over the
    silent peer [recv()] never returns.  And after a stream that ended in
    the middle of a payload, where [recv()] returned "no command" and left
    the five bytes received in the buffer, the next [recv()] raises
    [struct.error] on unpacking the header from that buffer. *)
Lemma recv_neither_total_nor_safe :
  ((∀ reader n, 0 < n → len (SilentReader.read reader n).1 ≤ n)
   ∧ ∀ fuel,
       CommandTransport.recv fuel module_registry
         (CommandTransport.__init__ (tt : SilentReader.t)) = OutOfFuel)
  ∧ ((∀ reader n, 0 < n → len (OneByteAtATimeReader.read reader n).1 ≤ n)
     ∧ ∀ fuel, (3 ≤ fuel)%nat →
         ∃ transport,
           CommandTransport.recv fuel module_registry
             (CommandTransport.__init__
                (OneByteAtATimeReader.mk
                   (DefaultReader.mk
                      [Byte.x20; Byte.x00; Byte.x03; Byte.x01; Byte.x02])))
             = Ret (None, transport)
           ∧ CommandTransport._read_buffer transport
             = [Byte.x20; Byte.x00; Byte.x03; Byte.x01; Byte.x02]
           ∧ CommandTransport.recv fuel module_registry transport
             = Raise StructError).
Proof.
  split; split.
  - intros reader n Hn. cbn. change (len []) with 0. lia.
  - intros fuel. apply recv_silent_never_returns.
  - apply OneByteAtATimeReader_read_bound.
  - intros fuel Hfuel.
    exists (CommandTransport.mk (OneByteAtATimeReader.mk (DefaultReader.mk []))
              [Byte.x20; Byte.x00; Byte.x03; Byte.x01; Byte.x02]).
    split_and!; [|done|].
    + rewrite (recv_mono 3 fuel); [by vm_compute|done|by vm_compute].
    + rewrite (recv_mono 3 fuel); [by vm_compute|done|by vm_compute].
Qed.

(** C10, amended. Over every reader whose [read(n)] returns at most [n]
    bytes, a [recv()] call that starts with an empty read buffer never
    raises: when the header loop is done the buffer holds exactly 3 bytes,
    which unpack; and the call ends either with an empty buffer, as it does
    whenever it returns a command, or with "no command" at the end of the
    stream.  The call returns, instead of waiting for ever, when moreover
    every [read] that does not leave the stream at its end returns at least
    one byte. *)
Theorem recv_from_empty_buffer {R : Type} `{!Reader R}
    (registry : gmap Z command_class) (self : CommandTransport.t R) (fuel : nat) :
  (∀ reader n, 0 < n → len (read reader n).1 ≤ n) →
  CommandTransport._read_buffer self = [] →
  (∀ self',
     CommandTransport._await_buffered fuel self COMMAND_HEADER_LENGTH
       = Ret (CommandTransport.Buffered self') →
     len (CommandTransport._read_buffer self') = COMMAND_HEADER_LENGTH
     ∧ ∃ type_ length,
         struct.unpack_BH (CommandTransport._read_buffer self')
           = Ret (type_, length))
  ∧ (∀ e, CommandTransport.recv fuel registry self ≠ Raise e)
  ∧ (∀ command self',
       CommandTransport.recv fuel registry self = Ret (command, self') →
       CommandTransport._read_buffer self' = []
       ∨ (command = None ∧ CommandTransport.at_eof self' = true))
  ∧ ((∀ reader n, 0 < n → at_eof (read reader n).2 = false →
                  (read reader n).1 ≠ []) →
     65535 ≤ Z.of_nat fuel →
     ∃ command self',
       CommandTransport.recv fuel registry self = Ret (command, self')).
Proof.
  intros Hbound Hbuf.
  pose proof (_await_buffered_exact Hbound fuel self COMMAND_HEADER_LENGTH) as Hexact.
  pose proof (recv_safe Hbound fuel registry self Hbuf) as Hsafe.
  split_and!.
  - intros self' Hrun. rewrite Hrun, Hbuf in Hexact.
    specialize (Hexact ltac:(by vm_compute)).
    split; [done|]. by apply unpack_BH_three.
  - intros e He. by rewrite He in Hsafe.
  - intros command self' Hrun. by rewrite Hrun in Hsafe.
  - intros Hsome Hfuel.
    pose proof (recv_returns Hbound Hsome fuel registry self Hbuf Hfuel) as Hret.
    destruct (CommandTransport.recv fuel registry self) as [[command self']| |];
      [by eexists _, _|done|done].
Qed.

Lemma recv_from_empty_buffer_witness :
  (∀ self',
     CommandTransport._await_buffered (Z.to_nat 65535)
       (CommandTransport.__init__
          (DefaultReader.mk
             [Byte.x20; Byte.x00; Byte.x03; Byte.x01; Byte.x02; Byte.x03]))
       COMMAND_HEADER_LENGTH
       = Ret (CommandTransport.Buffered self') →
     len (CommandTransport._read_buffer self') = COMMAND_HEADER_LENGTH
     ∧ ∃ type_ length,
         struct.unpack_BH (CommandTransport._read_buffer self')
           = Ret (type_, length))
  ∧ (∀ e, CommandTransport.recv (Z.to_nat 65535) module_registry
            (CommandTransport.__init__
               (DefaultReader.mk
                  [Byte.x20; Byte.x00; Byte.x03; Byte.x01; Byte.x02; Byte.x03]))
          ≠ Raise e)
  ∧ (∀ command self',
       CommandTransport.recv (Z.to_nat 65535) module_registry
         (CommandTransport.__init__
            (DefaultReader.mk
               [Byte.x20; Byte.x00; Byte.x03; Byte.x01; Byte.x02; Byte.x03]))
         = Ret (command, self') →
       CommandTransport._read_buffer self' = []
       ∨ (command = None ∧ CommandTransport.at_eof self' = true))
  ∧ ((∀ reader n, 0 < n → at_eof (read reader n).2 = false →
                  (read (R := DefaultReader.t) reader n).1 ≠ []) →
     65535 ≤ Z.of_nat (Z.to_nat 65535) →
     ∃ command self',
       CommandTransport.recv (Z.to_nat 65535) module_registry
         (CommandTransport.__init__
            (DefaultReader.mk
               [Byte.x20; Byte.x00; Byte.x03; Byte.x01; Byte.x02; Byte.x03]))
         = Ret (command, self')).
Proof.
  apply (recv_from_empty_buffer module_registry
           (CommandTransport.__init__
              (DefaultReader.mk
                 [Byte.x20; Byte.x00; Byte.x03; Byte.x01; Byte.x02; Byte.x03]))
           (Z.to_nat 65535)).
  - exact DefaultReader_read_bound.
  - reflexivity.
Defined.

(** ** Client session *)

Lemma frame_fields_frame header payload type_ :
  struct.unpack_BH header = Ret (type_, len payload) →
  frame_fields (header ++ payload) = Ret (type_, wire_value payload).
Proof.
  intros Hun. pose proof (unpack_BH_range _ _ _ Hun) as (Hh & _ & _).
  unfold frame_fields.
  rewrite slice_to_nonneg, take_app_length' by len_lia.
  rewrite Hun. cbn [mbind outcome_bind]. unfold wire_value.
  case_bool_decide as Hpos; [|done].
  unfold struct.unpack_from_s. rewrite bool_decide_false by len_lia.
  cbn [mbind outcome_bind].
  by rewrite drop_app_length', take_ge by len_lia.
Qed.

Lemma over_the_wire_frame registry c header payload :
  CommandProtocol.encode c = Ret (header ++ payload) →
  struct.unpack_BH header = Ret (BaseCommand.type c, len payload) →
  over_the_wire registry c
    = Ret (decoded registry (BaseCommand.type c) (wire_value payload)).
Proof.
  intros Henc Hun. unfold over_the_wire. rewrite Henc. cbn [mbind outcome_bind].
  rewrite (frame_fields_frame _ _ _ Hun). cbn [mbind outcome_bind].
  apply decode_decoded.
Qed.

(** The bytes [encode_all] returns: the accumulator, then one frame per
    command. *)
Lemma encode_all_Ret commands acc data :
  encode_all commands acc = Ret data →
  ∃ frames,
    Forall2 (λ c frame, CommandProtocol.encode c = Ret frame) commands frames
    ∧ data = acc ++ concat frames.
Proof.
  revert acc. induction commands as [|c commands IH]; intros acc; cbn [encode_all].
  - intros [= <-]. exists []. split; [constructor|]. by rewrite app_nil_r.
  - intros Hrun. apply bind_Ret_inv in Hrun as (frame & Henc & Hrun).
    apply IH in Hrun as (frames & Hall & ->).
    exists (frame :: frames). split; [by constructor|].
    cbn [concat]. by rewrite app_assoc.
Qed.

Section Session.
Context {R : Type} `{!Reader R} `{!FiniteStream R} {W : Type}.
Implicit Types (reader : R) (w : W) (self : LanternClient.t W).

Variable on_command_callback : LanternClient.callback W.

(** The callback returns or raises an [Exception]. *)
Hypothesis callback_raises_Exception :
  ∀ command w,
    match (on_command_callback command w).1 with
    | Ret _ => True
    | Raise e => is_Exception e = true
    | OutOfFuel => False
    end.

(** Over a stream that holds the frames of [commands], the receiving loop
    calls the callback on every command that arrives, whatever the callback
    raised before, and ends normally at the end of the stream. *)
Lemma _receive_commands_frames fuel registry self reader commands frames w :
  LanternClient._running self = true →
  LanternClient._on_command_callback self = Some on_command_callback →
  Forall2 (λ c frame, CommandProtocol.encode c = Ret frame) commands frames →
  pending reader = concat frames →
  (length (pending reader) + 2 ≤ fuel)%nat →
  ∃ reader',
    pending reader' = []
    ∧ LanternClient._receive_commands fuel registry self
        (CommandTransport.__init__ reader) w
      = Ret (CommandTransport.__init__ reader',
             called_on_each on_command_callback registry commands w).
Proof.
  intros Hrunning Hcallback Hall.
  revert fuel reader w.
  induction Hall as [|c frame commands frames Henc Hall IH];
    intros fuel reader w Hp Hfuel.
  - exists reader. split; [done|].
    destruct fuel as [|fuel]; [lia|]. cbn [LanternClient._receive_commands].
    rewrite Hrunning. unfold CommandTransport.at_eof, CommandTransport.__init__.
    cbn [CommandTransport._reader].
    by rewrite (proj2 (at_eof_true reader) Hp).
  - pose proof Henc as Hframe.
    apply encode_Ret_inv in Hframe as (header & payload & -> & Hun & Hlen & _).
    rewrite <- Hlen in Hun.
    pose proof (unpack_BH_range _ _ _ Hun) as (Hh & _ & _).
    cbn [concat] in Hp. rewrite <- app_assoc in Hp.
    destruct fuel as [|fuel]; [lia|]. cbn [LanternClient._receive_commands].
    rewrite Hrunning. unfold CommandTransport.at_eof at 1.
    unfold CommandTransport.__init__ at 1. cbn [CommandTransport._reader].
    rewrite (proj2 (at_eof_false reader)).
    2: { rewrite Hp. destruct header; [|done]. by vm_compute in Hh. }
    cbn [andb negb].
    destruct (recv_frame (S fuel) registry reader header payload (concat frames)
                (BaseCommand.type c) Hp Hun Hfuel) as (reader1 & Hrest & Hrun).
    rewrite Hrun. cbn [mbind outcome_bind]. rewrite Hcallback.
    cbn [called_on_each]. rewrite (over_the_wire_frame registry c header payload)
      by done.
    assert (length (pending reader1) + 2 ≤ fuel)%nat as Hfuel1.
    { rewrite Hp, !length_app in Hfuel. rewrite Hrest. len_lia. }
    destruct (decoded registry (BaseCommand.type c) (wire_value payload))
      as [command|]; [|by apply IH].
    pose proof (callback_raises_Exception command w) as Hcb.
    destruct (on_command_callback command w) as [[[]|e|] w']; cbn [fst snd] in *.
    + by apply IH.
    + rewrite Hcb. by apply IH.
    + done.
Qed.

(** The same, for the whole session of a client bound to one connection. *)
Lemma loop_one_connection fuel registry reader commands data w :
  encode_all commands [] = Ret data →
  pending reader = data →
  (length data + 2 ≤ fuel)%nat →
  LanternClient.loop fuel registry
    (LanternClient.__init__ (Some 1) (Some on_command_callback))
    [Some reader] w
  = Ret (LanternClient.mk true (Some 0) (Some on_command_callback), [],
         called_on_each on_command_callback registry commands w).
Proof.
  intros Henc Hp Hfuel.
  apply encode_all_Ret in Henc as (frames & Hall & Hdata). cbn [app] in Hdata.
  subst data.
  destruct fuel as [|[|fuel]]; [lia|lia|].
  cbn [LanternClient.loop LanternClient.__init__ LanternClient._running
       LanternClient._connect LanternClient._num_connections_to_process
       LanternClient._on_command_callback].
  rewrite bool_decide_false by done. cbn [andb negb mbind outcome_bind].
  destruct (_receive_commands_frames (S (S fuel)) registry
              (LanternClient.mk true (Some (1 - 1)) (Some on_command_callback))
              reader commands frames w) as (reader' & Hrest & Hrun);
    [done|done|done|done|by rewrite Hp|].
  rewrite Hrun. cbn [mbind outcome_bind].
  cbn [LanternClient.loop LanternClient.__init__ LanternClient._running
       LanternClient._connect LanternClient._num_connections_to_process
       LanternClient._on_command_callback].
  rewrite bool_decide_true by done. done.
Qed.

End Session.

(** C9. A callback that raises an [Exception] on a decoded command does
    not stop the client: over a connection that carries the frames of
    [commands], the receiving loop still calls the callback on every command
    that arrives, in order, and ends normally at the end of the stream; and
    the session of a client bound to one connection returns normally, with
    every one of these calls made. *)
Theorem callback_failure_is_isolated {R : Type} `{!Reader R} `{!FiniteStream R}
    {W : Type} (on_command_callback : LanternClient.callback W)
    (registry : gmap Z command_class) (commands : list command) (data : bytes)
    (reader : R) (w : W) (fuel : nat) :
  (∀ command w,
     match (on_command_callback command w).1 with
     | Ret _ => True
     | Raise e => is_Exception e = true
     | OutOfFuel => False
     end) →
  encode_all commands [] = Ret data →
  pending reader = data →
  (length data + 2 ≤ fuel)%nat →
  (∀ num_connections_to_process,
     ∃ transport,
       LanternClient._receive_commands fuel registry
         (LanternClient.__init__ num_connections_to_process
            (Some on_command_callback))
         (CommandTransport.__init__ reader) w
       = Ret (transport, called_on_each on_command_callback registry commands w)
       ∧ CommandTransport.at_eof transport = true)
  ∧ LanternClient.loop fuel registry
      (LanternClient.__init__ (Some 1) (Some on_command_callback))
      [Some reader] w
    = Ret (LanternClient.mk true (Some 0) (Some on_command_callback), [],
           called_on_each on_command_callback registry commands w).
Proof.
  intros Hcb Henc Hp Hfuel. split.
  - intros num. pose proof Henc as Hframes.
    apply encode_all_Ret in Hframes as (frames & Hall & Hdata).
    cbn [app] in Hdata. rewrite Hdata in Hp, Hfuel.
    destruct (_receive_commands_frames on_command_callback Hcb fuel registry
                (LanternClient.__init__ num (Some on_command_callback))
                reader commands frames w) as (reader' & Hrest & Hrun);
      [done|done|done|done|by rewrite Hp|].
    eexists. split; [done|]. by apply transport_at_eof.
  - by apply (loop_one_connection on_command_callback Hcb fuel registry
                reader commands data w).
Qed.

Lemma callback_failure_is_isolated_witness :
  (∀ num_connections_to_process,
     ∃ transport,
       LanternClient._receive_commands 20 module_registry
         (LanternClient.__init__ num_connections_to_process (Some failing_callback))
         (CommandTransport.__init__
            (OneByteAtATimeReader.mk
               (DefaultReader.mk
                  [Byte.x20; Byte.x00; Byte.x03; Byte.x0a; Byte.x14; Byte.x1e;
                   Byte.x12; Byte.x00; Byte.x00; Byte.x13; Byte.x00; Byte.x00;
                   Byte.x20; Byte.x00; Byte.x03; Byte.x28; Byte.x32; Byte.x3c])))
         []
       = Ret (transport,
              [BaseCommand.mk CommandColor (Some [Byte.x0a; Byte.x14; Byte.x1e]) 3;
               BaseCommand.mk CommandOn None 0;
               BaseCommand.mk CommandOff None 0;
               BaseCommand.mk CommandColor (Some [Byte.x28; Byte.x32; Byte.x3c]) 3])
       ∧ CommandTransport.at_eof transport = true)
  ∧ LanternClient.loop 20 module_registry
      (LanternClient.__init__ (Some 1) (Some failing_callback))
      [Some
         (OneByteAtATimeReader.mk
            (DefaultReader.mk
               [Byte.x20; Byte.x00; Byte.x03; Byte.x0a; Byte.x14; Byte.x1e;
                Byte.x12; Byte.x00; Byte.x00; Byte.x13; Byte.x00; Byte.x00;
                Byte.x20; Byte.x00; Byte.x03; Byte.x28; Byte.x32; Byte.x3c]))]
      []
    = Ret (LanternClient.mk true (Some 0) (Some failing_callback), [],
           [BaseCommand.mk CommandColor (Some [Byte.x0a; Byte.x14; Byte.x1e]) 3;
            BaseCommand.mk CommandOn None 0;
            BaseCommand.mk CommandOff None 0;
            BaseCommand.mk CommandColor (Some [Byte.x28; Byte.x32; Byte.x3c]) 3]).
Proof.
  apply (callback_failure_is_isolated failing_callback module_registry
           [BaseCommand.mk CommandColor (Some [Byte.x0a; Byte.x14; Byte.x1e]) 3;
            BaseCommand.mk CommandOn None 0;
            BaseCommand.mk CommandOff None 0;
            BaseCommand.mk CommandColor (Some [Byte.x28; Byte.x32; Byte.x3c]) 3]
           [Byte.x20; Byte.x00; Byte.x03; Byte.x0a; Byte.x14; Byte.x1e;
            Byte.x12; Byte.x00; Byte.x00; Byte.x13; Byte.x00; Byte.x00;
            Byte.x20; Byte.x00; Byte.x03; Byte.x28; Byte.x32; Byte.x3c]
           (OneByteAtATimeReader.mk
              (DefaultReader.mk
                 [Byte.x20; Byte.x00; Byte.x03; Byte.x0a; Byte.x14; Byte.x1e;
                  Byte.x12; Byte.x00; Byte.x00; Byte.x13; Byte.x00; Byte.x00;
                  Byte.x20; Byte.x00; Byte.x03; Byte.x28; Byte.x32; Byte.x3c]))
           [] 20).
  - intros command w. simpl. reflexivity.
  - reflexivity.
  - reflexivity.
  - simpl. lia.
Defined.

(** * Further properties of the code *)

(** ** Codec *)

Lemma pack_BH_raises b h :
  ¬ (0 ≤ b ≤ 255 ∧ 0 ≤ h ≤ 65535) → struct.pack_BH b h = Raise StructError.
Proof.
  intros Hno. destruct (struct.pack_BH b h) as [message|e|] eqn:Hpack.
  - apply pack_BH_inv in Hpack as (Hb & Hh & _). by destruct Hno.
  - unfold struct.pack_BH in Hpack.
    by repeat (case_match; simplify_eq).
  - unfold struct.pack_BH in Hpack.
    by repeat (case_match; simplify_eq).
Qed.

Lemma encode_Ret_of_encodable (c : command) :
  (encodable c → ∃ frame, CommandProtocol.encode c = Ret frame)
  ∧ (¬ encodable c → CommandProtocol.encode c = Raise StructError).
Proof.
  unfold encodable, CommandProtocol.encode. split.
  - intros (Ht & Hl & Hv).
    destruct (pack_BH_Ret _ _ Ht Hl) as (b0 & b1 & b2 & -> & _).
    cbn [mbind outcome_bind]. case_bool_decide as Hpos; [|by eexists].
    destruct (BaseCommand.value c) as [v|]; [by eexists|].
    by destruct (Hv Hpos).
  - intros Hno.
    destruct (decide (0 ≤ BaseCommand.type c ≤ 255
                      ∧ 0 ≤ BaseCommand.length c ≤ 65535)) as [[Ht Hl]|Hrange].
    + destruct (pack_BH_Ret _ _ Ht Hl) as (b0 & b1 & b2 & -> & _).
      cbn [mbind outcome_bind]. case_bool_decide as Hpos.
      * destruct (BaseCommand.value c) as [v|] eqn:Hv; [|done].
        exfalso. apply Hno. split_and!; [lia..|done].
      * exfalso. apply Hno. split_and!; [lia..|]. intros Hpos'. by destruct Hpos.
    + by rewrite (pack_BH_raises _ _ Hrange).
Qed.

(** X1. [encode] returns a frame for exactly the commands whose type fits a
    byte, whose length fits 16 bits and which carry a value when their length
    is not 0; for exactly the other commands it raises [struct.error], and it
    raises nothing else. *)
Theorem encode_returns_iff_encodable (c : command) :
  ((∃ frame, CommandProtocol.encode c = Ret frame) ↔ encodable c)
  ∧ (CommandProtocol.encode c = Raise StructError ↔ ¬ encodable c)
  ∧ (∀ e, CommandProtocol.encode c = Raise e → e = StructError).
Proof.
  destruct (encode_Ret_of_encodable c) as [Hret Hraise].
  destruct (decide (encodable c)) as [Hok|Hno].
  - destruct (Hret Hok) as [frame Hframe]. rewrite Hframe.
    split_and!; [split; [done|by eexists]|split; [done|]|done].
    intros Hno. by destruct Hno.
  - rewrite (Hraise Hno).
    split_and!; [split; [by intros [frame ?]|done]|done|by intros e [= <-]].
Qed.

Lemma encode_returns_iff_encodable_witness :
  (∃ frame,
     CommandProtocol.encode (BaseCommand.mk CommandColor (Some [Byte.x07]) 1)
       = Ret frame)
  ∧ CommandProtocol.encode (BaseCommand.mk CommandColor None 3) = Raise StructError.
Proof.
  split.
  - apply (proj1 (encode_returns_iff_encodable
                    (BaseCommand.mk CommandColor (Some [Byte.x07]) 1))).
    unfold encodable, BaseCommand.type. simpl. split_and!; (lia || done).
  - apply (proj1 (proj2 (encode_returns_iff_encodable
                           (BaseCommand.mk CommandColor None 3)))).
    unfold encodable. simpl. intros (_ & _ & Hvalue). apply Hvalue; [lia|done].
Defined.

(** X2. A frame that [encode] returns is always [3 + length] bytes long and
    parses back to the command's type and to exactly [length] payload bytes:
    the value, cut to [length] bytes or padded with null bytes when its own
    length differs. *)
Theorem encode_frame_fields (c : command) (frame : bytes) :
  CommandProtocol.encode c = Ret frame →
  len frame = 3 + BaseCommand.length c
  ∧ frame_fields frame
    = Ret (BaseCommand.type c,
           if bool_decide (0 < BaseCommand.length c)
           then (λ v, take (Z.to_nat (BaseCommand.length c)) v
                        ++ replicate (Z.to_nat (BaseCommand.length c) - length v)
                             Byte.x00)
                  <$> BaseCommand.value c
           else None).
Proof.
  intros Henc.
  apply encode_Ret_inv in Henc as (header & payload & -> & Hun & Hlen & Hpack).
  pose proof (unpack_BH_range _ _ _ Hun) as (Hh & _ & _).
  split; [rewrite len_app; lia|].
  rewrite <- Hlen in Hun. rewrite (frame_fields_frame _ _ _ Hun).
  unfold wire_value. rewrite Hlen. case_bool_decide as Hpos; [|done].
  specialize (Hpack Hpos). destruct (BaseCommand.value c) as [v|]; [|done].
  injection Hpack as <-. done.
Qed.

Lemma encode_frame_fields_witness :
  len [Byte.x20; Byte.x00; Byte.x03; Byte.x07; Byte.x00; Byte.x00] = 3 + 3
  ∧ frame_fields [Byte.x20; Byte.x00; Byte.x03; Byte.x07; Byte.x00; Byte.x00]
    = Ret (0x20, Some [Byte.x07; Byte.x00; Byte.x00]).
Proof.
  apply (encode_frame_fields (BaseCommand.mk CommandColor (Some [Byte.x07]) 3)).
  reflexivity.
Defined.

(** X3. [from_rgb] builds a 3-byte [Color] command out of components that
    fit a byte each, and its [rgb] gives the components back; with any
    component out of range it raises [struct.error]. *)
Theorem rgb_from_rgb (r g b : Z) :
  (0 ≤ r ≤ 255 ∧ 0 ≤ g ≤ 255 ∧ 0 ≤ b ≤ 255 →
   ∃ c, CommandColor_.from_rgb r g b = Ret c
     ∧ BaseCommand.cls c = CommandColor
     ∧ BaseCommand.length c = 3
     ∧ CommandColor_.rgb c = Ret (r, g, b))
  ∧ (¬ (0 ≤ r ≤ 255 ∧ 0 ≤ g ≤ 255 ∧ 0 ≤ b ≤ 255) →
     CommandColor_.from_rgb r g b = Raise StructError).
Proof.
  unfold CommandColor_.from_rgb, struct.pack_BBB. split.
  - intros (Hr & Hg & Hb).
    destruct (byte_of_Z_is_Some r Hr) as [b0 H0].
    destruct (byte_of_Z_is_Some g Hg) as [b1 H1].
    destruct (byte_of_Z_is_Some b Hb) as [b2 H2].
    rewrite H0, H1, H2. cbn. eexists. split_and!; [done|done|done|].
    apply byte_of_Z_Some in H0, H1, H2. unfold CommandColor_.rgb. cbn.
    by rewrite H0, H1, H2.
  - intros Hno.
    destruct (byte_of_Z r) as [b0|] eqn:H0; [|done].
    destruct (byte_of_Z g) as [b1|] eqn:H1; [|done].
    destruct (byte_of_Z b) as [b2|] eqn:H2; [|done].
    exfalso. apply Hno. apply byte_of_Z_Some in H0, H1, H2.
    pose proof (byte_to_Z_range b0). pose proof (byte_to_Z_range b1).
    pose proof (byte_to_Z_range b2). lia.
Qed.

Lemma rgb_from_rgb_witness :
  (∃ c, CommandColor_.from_rgb 100 2 10 = Ret c
     ∧ BaseCommand.cls c = CommandColor
     ∧ BaseCommand.length c = 3
     ∧ CommandColor_.rgb c = Ret (100, 2, 10))
  ∧ CommandColor_.from_rgb 100 256 10 = Raise StructError.
Proof.
  split.
  - apply (proj1 (rgb_from_rgb 100 2 10)). lia.
  - apply (proj2 (rgb_from_rgb 100 256 10)). lia.
Defined.

(** ** Registry *)

(** X4. Registering a class under a type byte that is free succeeds; from
    then on that type byte decodes to an instance of the class around the
    payload given, and every other type byte decodes as before. *)
Theorem register_then_decode (registry : gmap Z command_class)
    (command : command_class) :
  registry !! class_type command = None →
  (CommandProtocol.register command registry).1 = Ret ()
  ∧ (∀ value,
       CommandProtocol.decode (CommandProtocol.register command registry).2
         (class_type command) value
       = Ret (Some (BaseCommand.mk command value (value_length value))))
  ∧ (∀ type_ value,
       type_ ≠ class_type command →
       CommandProtocol.decode (CommandProtocol.register command registry).2
         type_ value
       = CommandProtocol.decode registry type_ value).
Proof.
  intros Hfree. rewrite (register_fresh _ _ Hfree). cbn [fst snd].
  split_and!; [done| |].
  - intros value. apply decode_registered. apply lookup_insert_eq.
  - intros type_ value Hne. unfold CommandProtocol.decode.
    by rewrite lookup_insert_ne.
Qed.

Lemma register_then_decode_witness :
  (CommandProtocol.register (Class "CommandTest" 0x98) module_registry).1 = Ret ()
  ∧ (∀ value,
       CommandProtocol.decode
         (CommandProtocol.register (Class "CommandTest" 0x98) module_registry).2
         0x98 value
       = Ret (Some (BaseCommand.mk (Class "CommandTest" 0x98) value
                      (value_length value))))
  ∧ (∀ type_ value,
       type_ ≠ 0x98 →
       CommandProtocol.decode
         (CommandProtocol.register (Class "CommandTest" 0x98) module_registry).2
         type_ value
       = CommandProtocol.decode module_registry type_ value).
Proof.
  apply (register_then_decode module_registry (Class "CommandTest" 0x98)).
  reflexivity.
Defined.

Lemma define_classes_spec (l : list command_class) (registry : gmap Z command_class) :
  (NoDup (class_type <$> l) ∧ (∀ c, c ∈ l → registry !! class_type c = None) →
   (define_classes l registry).1 = Ret ()
   ∧ (∀ c, c ∈ l → (define_classes l registry).2 !! class_type c = Some c)
   ∧ (∀ type_, type_ ∉ class_type <$> l →
        (define_classes l registry).2 !! type_ = registry !! type_))
  ∧ (¬ (NoDup (class_type <$> l)
        ∧ (∀ c, c ∈ l → registry !! class_type c = None)) →
     (define_classes l registry).1 = Raise ValueError).
Proof.
  revert registry. induction l as [|c l IH]; intros registry.
  - split; [|intros Hno; destruct Hno; split; [constructor|by intros c ?%elem_of_nil]].
    intros _. split_and!; [done|by intros c ?%elem_of_nil|done].
  - cbn [define_classes fmap list_fmap]. unfold CommandProtocol.register.
    destruct (registry !! class_type c) as [original|] eqn:Hc.
    + split; [|done]. intros [_ Hfree].
      rewrite Hfree in Hc by apply list_elem_of_here. done.
    + destruct (IH (<[class_type c := c]> registry)) as [IHok IHfail].
      split.
      * intros [Hnodup Hfree]. apply NoDup_cons in Hnodup as [Hnotin Hnodup].
        destruct IHok as (Hret & Hin & Hout).
        { split; [done|]. intros c' Hc'. rewrite lookup_insert_ne.
          - apply Hfree. by apply list_elem_of_further.
          - intros Heq. apply Hnotin. rewrite Heq.
            by apply list_elem_of_fmap_2. }
        split_and!; [done| |].
        -- intros c' [->|Hc']%elem_of_cons; [|by apply Hin].
           rewrite Hout by done. apply lookup_insert_eq.
        -- intros type_ [Hne Hnotin']%not_elem_of_cons.
           rewrite Hout by done. by rewrite lookup_insert_ne.
      * intros Hno. apply IHfail. intros [Hnodup Hfree]. apply Hno. split.
        -- apply NoDup_cons. split; [|done].
           intros (c' & Heq & Hc')%list_elem_of_fmap.
           specialize (Hfree c' Hc'). rewrite <- Heq in Hfree.
           by rewrite lookup_insert_eq in Hfree.
        -- intros c' [->|Hc']%elem_of_cons; [done|].
           specialize (Hfree c' Hc').
           destruct (decide (class_type c = class_type c')) as [Heq|Hne].
           ++ rewrite <- Heq in Hfree. by rewrite lookup_insert_eq in Hfree.
           ++ by rewrite lookup_insert_ne in Hfree.
Qed.

(** X5. Defining a list of command classes from an empty registry goes
    through exactly when their type bytes are pairwise distinct, and then
    every class of the list sits under its own type byte and no other type
    byte is registered; otherwise the definition that repeats a type byte
    raises [ValueError]. *)
Theorem define_classes_distinct_types (l : list command_class) :
  (NoDup (class_type <$> l) →
   (define_classes l ∅).1 = Ret ()
   ∧ (∀ c, c ∈ l → (define_classes l ∅).2 !! class_type c = Some c)
   ∧ (∀ type_, type_ ∉ class_type <$> l → (define_classes l ∅).2 !! type_ = None))
  ∧ (¬ NoDup (class_type <$> l) → (define_classes l ∅).1 = Raise ValueError).
Proof.
  destruct (define_classes_spec l ∅) as [Hok Hfail]. split.
  - intros Hnodup. destruct Hok as (Hret & Hin & Hout); [by split|].
    split_and!; [done|done|]. intros type_ Hnotin. by rewrite Hout.
  - intros Hdup. apply Hfail. by intros [Hnodup _].
Qed.

Lemma define_classes_distinct_types_witness :
  ((define_classes defined_classes ∅).1 = Ret ()
   ∧ (∀ c, c ∈ defined_classes →
        (define_classes defined_classes ∅).2 !! class_type c = Some c)
   ∧ (∀ type_, type_ ∉ class_type <$> defined_classes →
        (define_classes defined_classes ∅).2 !! type_ = None))
  ∧ (define_classes [CommandOn; CommandOff; Class "CommandTest" 0x12] ∅).1
    = Raise ValueError.
Proof.
  split.
  - apply (proj1 (define_classes_distinct_types defined_classes)).
    apply (bool_decide_unpack _); by vm_compute.
  - apply (proj2 (define_classes_distinct_types
                    [CommandOn; CommandOff; Class "CommandTest" 0x12])).
    apply (bool_decide_unpack _); by vm_compute.
Defined.

(** X6. A registry in which every class sits under its own type byte stays
    so through [register], whatever its outcome; and out of such a registry
    [decode] only returns commands whose type is the type byte asked for,
    around the payload given. *)
Theorem keyed_by_type_kept (registry : gmap Z command_class) :
  keyed_by_type registry →
  (∀ command, keyed_by_type (CommandProtocol.register command registry).2)
  ∧ (∀ type_ value command,
       CommandProtocol.decode registry type_ value = Ret (Some command) →
       BaseCommand.type command = type_
       ∧ BaseCommand.value command = value
       ∧ BaseCommand.length command = value_length value).
Proof.
  intros Hkeyed. split.
  - intros command. unfold CommandProtocol.register.
    destruct (registry !! class_type command) eqn:Hc; cbn [snd]; [done|].
    intros type_ c. destruct (decide (type_ = class_type command)) as [->|Hne].
    + rewrite lookup_insert_eq. by intros [= <-].
    + rewrite lookup_insert_ne by done. apply Hkeyed.
  - intros type_ value command. unfold CommandProtocol.decode.
    destruct (registry !! type_) as [c|] eqn:Hc; [|done].
    cbn. intros [= <-]. split_and!; [|done|done]. by apply Hkeyed.
Qed.

Lemma module_registry_keyed_by_type : keyed_by_type module_registry.
Proof.
  intros type_ c Hc. unfold module_registry in Hc.
  destruct (proj1 (define_classes_spec defined_classes ∅))
    as (_ & Hin & Hout); [split; [apply (bool_decide_unpack _); by vm_compute|done]|].
  destruct (decide (type_ ∈ class_type <$> defined_classes)) as [Hreg|Hfree].
  - apply list_elem_of_fmap in Hreg as (c' & -> & Hc').
    rewrite (Hin c' Hc') in Hc. by injection Hc as <-.
  - by rewrite (Hout type_ Hfree) in Hc.
Qed.

Lemma keyed_by_type_kept_witness :
  (∀ command,
     keyed_by_type (CommandProtocol.register command module_registry).2)
  ∧ (∀ type_ value command,
       CommandProtocol.decode module_registry type_ value = Ret (Some command) →
       BaseCommand.type command = type_
       ∧ BaseCommand.value command = value
       ∧ BaseCommand.length command = value_length value).
Proof. apply (keyed_by_type_kept module_registry module_registry_keyed_by_type). Defined.

(** ** Transport *)

Lemma recv_result_cases registry data command buffer rest :
  recv_result registry data = (command, buffer, rest) →
  (command = None ∧ buffer = data ∧ rest = [])
  ∨ (buffer = [] ∧ (length rest + 3 ≤ length data)%nat).
Proof.
  unfold recv_result.
  destruct (struct.unpack_BH (take 3 data)) as [[type_ length_]| |] eqn:Hun;
    [|intros [= <- <- <-]; by left..].
  apply unpack_BH_range in Hun as (Hh & _ & Hl).
  case_bool_decide as Hshort; intros [= <- <- <-]; [by left|right].
  split; [done|]. len_lia.
Qed.

Section FiniteStreamsMore.
Context {R : Type} `{!Reader R} `{!FiniteStream R}.
Import TransportNames.
Implicit Types (self : CommandTransport.t R) (reader : R).

(** Over a finite stream, [recv] from an empty buffer is [recv_result] of
    the bytes pending. *)
Lemma recv_finite fuel registry reader :
  (length (pending reader) + 2 ≤ fuel)%nat →
  ∃ reader',
    pending reader' = (recv_result registry (pending reader)).2
    ∧ recv fuel registry (CommandTransport.__init__ reader)
      = Ret ((recv_result registry (pending reader)).1.1,
             mk reader' (recv_result registry (pending reader)).1.2).
Proof.
  intros Hfuel. unfold recv_result.
  destruct (decide (len (pending reader) < 3)) as [Hshort|Hlong].
  - destruct (recv_truncated_header fuel registry reader Hshort Hfuel)
      as (reader' & Hrest & Hrun).
    exists reader'. rewrite Hrun.
    destruct (struct.unpack_BH (take 3 (pending reader)))
      as [[type_ length_]| |] eqn:Hun; [|done..].
    apply unpack_BH_range in Hun as (Hh & _). len_lia.
  - destruct (unpack_BH_three (take 3 (pending reader)))
      as (type_ & length_ & Hun); [len_lia|].
    rewrite Hun. pose proof (unpack_BH_range _ _ _ Hun) as (_ & _ & Hl).
    case_bool_decide as Hshort.
    + destruct (recv_truncated_payload fuel registry reader
                  (take 3 (pending reader)) (drop 3 (pending reader))
                  type_ length_) as (reader' & Hrest & Hrun);
        [by rewrite take_drop|done|done|done|].
      exists reader'. by rewrite Hrun.
    + destruct (recv_frame fuel registry reader (take 3 (pending reader))
                  (take (Z.to_nat length_) (drop 3 (pending reader)))
                  (drop (3 + Z.to_nat length_) (pending reader)) type_)
        as (reader' & Hrest & Hrun); [| |done|].
      { rewrite <- drop_drop, !take_drop. done. }
      { rewrite Hun. do 2 f_equal. len_lia. }
      exists reader'. by rewrite Hrun.
Qed.

End FiniteStreamsMore.

(** X7. Over a finite stream [_retry_read(n)] returns the first [n] bytes
    pending, or all of them when fewer are pending, in the order of the
    stream and however the stream chunks them; it leaves the remaining bytes
    in the stream and does not touch the read buffer. *)
Theorem _retry_read_takes_prefix {R : Type} `{!Reader R} `{!FiniteStream R}
    (fuel : nat) (self : CommandTransport.t R) (n : Z) :
  (length (pending (CommandTransport._reader self)) < fuel)%nat →
  ∃ reader',
    CommandTransport._retry_read fuel self n
      = Ret (take (Z.to_nat n) (pending (CommandTransport._reader self)),
             CommandTransport.mk reader' (CommandTransport._read_buffer self))
    ∧ pending reader'
      = drop (Z.to_nat n) (pending (CommandTransport._reader self)).
Proof.
  intros Hfuel. unfold CommandTransport._retry_read.
  destruct (decide (0 ≤ n)) as [Hn|Hn].
  - destruct (_retry_read_from_finite fuel self n []) as (reader' & Hrun & Hrest);
      [by change (len []) with 0|done|].
    change (len []) with 0 in *. rewrite Z.sub_0_r in *.
    exists reader'. by rewrite Hrun.
  - rewrite _retry_read_from_unfold.
    rewrite bool_decide_false by (change (len []) with 0; lia).
    exists (CommandTransport._reader self).
    replace (Z.to_nat n) with 0%nat by lia. by destruct self.
Qed.

Lemma _retry_read_takes_prefix_witness :
  ∃ reader',
    CommandTransport._retry_read 3
      (CommandTransport.mk
         (OneByteAtATimeReader.mk (DefaultReader.mk [Byte.x20; Byte.x00]))
         [Byte.x01])
      3
    = Ret (take (Z.to_nat 3) [Byte.x20; Byte.x00],
           CommandTransport.mk reader' [Byte.x01])
    ∧ pending reader' = drop (Z.to_nat 3) [Byte.x20; Byte.x00].
Proof.
  refine (_retry_read_takes_prefix 3
            (CommandTransport.mk
               (OneByteAtATimeReader.mk (DefaultReader.mk [Byte.x20; Byte.x00]))
               [Byte.x01]) 3 _).
  simpl. lia.
Defined.

(** X8. Over finite streams the outcome of [recv()] on a fresh transport
    depends on the bytes of the stream only, not on how [read] chunks them:
    two streams with the same bytes give the same command, leave the same
    buffer and have the same bytes left, which are what [recv_result]
    computes from the bytes. *)
Theorem recv_chunking_independent {R1 R2 : Type}
    `{!Reader R1} `{!FiniteStream R1} `{!Reader R2} `{!FiniteStream R2}
    (registry : gmap Z command_class) (reader1 : R1) (reader2 : R2) (fuel : nat) :
  pending reader1 = pending reader2 →
  (length (pending reader1) + 2 ≤ fuel)%nat →
  ∃ reader1' reader2',
    CommandTransport.recv fuel registry (CommandTransport.__init__ reader1)
      = Ret ((recv_result registry (pending reader1)).1.1,
             CommandTransport.mk reader1'
               (recv_result registry (pending reader1)).1.2)
    ∧ CommandTransport.recv fuel registry (CommandTransport.__init__ reader2)
      = Ret ((recv_result registry (pending reader1)).1.1,
             CommandTransport.mk reader2'
               (recv_result registry (pending reader1)).1.2)
    ∧ pending reader1' = (recv_result registry (pending reader1)).2
    ∧ pending reader2' = (recv_result registry (pending reader1)).2.
Proof.
  intros Hsame Hfuel.
  destruct (recv_finite fuel registry reader1 Hfuel) as (reader1' & Hrest1 & Hrun1).
  destruct (recv_finite fuel registry reader2) as (reader2' & Hrest2 & Hrun2);
    [by rewrite <- Hsame|].
  rewrite <- Hsame in Hrest2, Hrun2. by exists reader1', reader2'.
Qed.

Lemma recv_chunking_independent_witness :
  ∃ reader1' reader2',
    CommandTransport.recv 9 module_registry
      (CommandTransport.__init__
         (OneByteAtATimeReader.mk
            (DefaultReader.mk
               [Byte.x12; Byte.x00; Byte.x00; Byte.x20; Byte.x00; Byte.x03;
                Byte.x01])))
      = Ret (Some (BaseCommand.mk CommandOn None 0),
             CommandTransport.mk reader1' [])
    ∧ CommandTransport.recv 9 module_registry
        (CommandTransport.__init__
           (DefaultReader.mk
              [Byte.x12; Byte.x00; Byte.x00; Byte.x20; Byte.x00; Byte.x03;
               Byte.x01]))
      = Ret (Some (BaseCommand.mk CommandOn None 0),
             CommandTransport.mk reader2' [])
    ∧ pending reader1' = [Byte.x20; Byte.x00; Byte.x03; Byte.x01]
    ∧ pending reader2' = [Byte.x20; Byte.x00; Byte.x03; Byte.x01].
Proof.
  refine (recv_chunking_independent module_registry
           (OneByteAtATimeReader.mk
              (DefaultReader.mk
                 [Byte.x12; Byte.x00; Byte.x00; Byte.x20; Byte.x00; Byte.x03;
                  Byte.x01]))
           (DefaultReader.mk
              [Byte.x12; Byte.x00; Byte.x00; Byte.x20; Byte.x00; Byte.x03;
               Byte.x01])
           9 _ _).
  - reflexivity.
  - simpl. lia.
Defined.

(** X9. Whatever commands were encoded back to back into a finite stream,
    as many [recv()] calls as there are commands return, in order, what
    each command's trip over the wire gives (the command, or "no command"
    for a type byte that is not registered, which is dropped without upsetting
    the frames behind it), and leave the buffer empty and the stream at its
    end; the [recv()] after them returns "no command". *)
Theorem recv_times_frames {R : Type} `{!Reader R} `{!FiniteStream R}
    (registry : gmap Z command_class) (commands : list command) (data : bytes)
    (reader : R) (fuel : nat) :
  encode_all commands [] = Ret data →
  pending reader = data →
  (length data + 2 ≤ fuel)%nat →
  ∃ result reader' reader'',
    CommandTransport.recv_times fuel registry (CommandTransport.__init__ reader)
      (length commands)
    = Ret (result, CommandTransport.__init__ reader')
    ∧ Forall2 (λ c r, over_the_wire registry c = Ret r) commands result
    ∧ pending reader' = []
    ∧ CommandTransport.recv fuel registry (CommandTransport.__init__ reader')
      = Ret (None, CommandTransport.__init__ reader'').
Proof.
  intros Henc Hp Hfuel.
  apply encode_all_Ret in Henc as (frames & Hall & Hdata). cbn [app] in Hdata.
  rewrite Hdata in Hp, Hfuel. clear Hdata. revert reader Hp Hfuel.
  induction Hall as [|c frame commands frames Henc Hall IH]; intros reader Hp Hfuel.
  - destruct (recv_truncated_header fuel registry reader)
      as (reader'' & Hrest & Hrun); [by rewrite Hp|by rewrite Hp|].
    exists [], reader, reader''. split_and!; [done|constructor|done|].
    by rewrite Hrun, Hp.
  - pose proof Henc as Hframe.
    apply encode_Ret_inv in Hframe as (header & payload & -> & Hun & Hlen & _).
    rewrite <- Hlen in Hun. cbn [concat] in Hp, Hfuel.
    rewrite <- app_assoc in Hp.
    destruct (recv_frame fuel registry reader header payload (concat frames)
                (BaseCommand.type c) Hp Hun)
      as (reader1 & Hrest & Hrun); [rewrite Hp; len_lia|].
    destruct (IH reader1 Hrest) as (result & reader' & reader'' & Hruns & Hres & Hend & Hlast);
      [len_lia|].
    exists (decoded registry (BaseCommand.type c) (wire_value payload) :: result),
      reader', reader''.
    cbn [length CommandTransport.recv_times]. rewrite Hrun.
    cbn [mbind outcome_bind]. rewrite Hruns. cbn [mbind outcome_bind].
    split_and!; [done| |done|done].
    constructor; [|done]. by apply (over_the_wire_frame registry c header payload).
Qed.

Lemma recv_times_frames_witness :
  ∃ result reader' reader'',
    CommandTransport.recv_times 11 (delete 0x99 module_registry)
      (CommandTransport.__init__
         (OneByteAtATimeReader.mk
            (DefaultReader.mk
               [Byte.x99; Byte.x00; Byte.x00; Byte.x20; Byte.x00; Byte.x03;
                Byte.x01; Byte.x02; Byte.x03])))
      (length [BaseCommand.mk CommandUnknown None 0;
               BaseCommand.mk CommandColor
                 (Some [Byte.x01; Byte.x02; Byte.x03]) 3])
    = Ret (result, CommandTransport.__init__ reader')
    ∧ Forall2 (λ c r, over_the_wire (delete 0x99 module_registry) c = Ret r)
        [BaseCommand.mk CommandUnknown None 0;
         BaseCommand.mk CommandColor (Some [Byte.x01; Byte.x02; Byte.x03]) 3]
        result
    ∧ pending reader' = []
    ∧ CommandTransport.recv 11 (delete 0x99 module_registry)
        (CommandTransport.__init__ reader')
      = Ret (None, CommandTransport.__init__ reader'').
Proof.
  refine (recv_times_frames (delete 0x99 module_registry)
            [BaseCommand.mk CommandUnknown None 0;
             BaseCommand.mk CommandColor (Some [Byte.x01; Byte.x02; Byte.x03]) 3]
            [Byte.x99; Byte.x00; Byte.x00; Byte.x20; Byte.x00; Byte.x03;
             Byte.x01; Byte.x02; Byte.x03] _ 11 _ _ _).
  - reflexivity.
  - reflexivity.
  - simpl. lia.
Defined.

(** ** Receive loop *)

Lemma _receive_commands_unfold {R : Type} `{!Reader R} {W : Type}
    fuel registry (self : LanternClient.t W) (transport : CommandTransport.t R) w :
  LanternClient._receive_commands fuel registry self transport w =
    if LanternClient._running self && negb (CommandTransport.at_eof transport) then
      match fuel with
      | O => OutOfFuel
      | S fuel' =>
          '(command, transport) ← CommandTransport.recv fuel registry transport;
          match command, LanternClient._on_command_callback self with
          | Some command, Some on_command_callback =>
              match on_command_callback command w with
              | (Ret _, w) =>
                  LanternClient._receive_commands fuel' registry self transport w
              | (Raise e, w) =>
                  if is_Exception e
                  then LanternClient._receive_commands fuel' registry self transport w
                  else Raise e
              | (OutOfFuel, _) => OutOfFuel
              end
          | _, _ => LanternClient._receive_commands fuel' registry self transport w
          end
      end
    else Ret (transport, w).
Proof. by destruct fuel. Qed.

Section LoopOverBytes.
Context {R : Type} `{!Reader R} `{!FiniteStream R} {W : Type}.
Implicit Types (reader : R) (w : W).

Variable self : LanternClient.t W.
Hypothesis running : LanternClient._running self = true.
Hypothesis callback_returns_or_raises_Exception :
  ∀ on_command_callback command w,
    LanternClient._on_command_callback self = Some on_command_callback →
    match (on_command_callback command w).1 with
    | Ret _ => True
    | Raise e => is_Exception e = true
    | OutOfFuel => False
    end.

Lemma _receive_commands_bytes fuel registry reader w :
  (length (pending reader) + 2 ≤ fuel)%nat →
  ∃ transport w',
    LanternClient._receive_commands fuel registry self
      (CommandTransport.__init__ reader) w = Ret (transport, w')
    ∧ CommandTransport.at_eof transport = true.
Proof.
  revert reader w. induction fuel as [|fuel IH]; intros reader w Hfuel; [lia|].
  rewrite _receive_commands_unfold, running.
  unfold CommandTransport.at_eof at 1, CommandTransport.__init__ at 1.
  cbn [CommandTransport._reader].
  destruct (at_eof reader) eqn:Heof; cbn [andb negb].
  { eexists _, _. split; [done|]. done. }
  destruct (recv_finite (S fuel) registry reader Hfuel) as (reader' & Hrest & Hrun).
  rewrite Hrun. cbn [mbind outcome_bind].
  destruct (recv_result registry (pending reader)) as [[command buffer] rest] eqn:Hres.
  cbn [fst snd] in *.
  apply recv_result_cases in Hres as [(-> & -> & ->)|[-> Hshorter]].
  - rewrite _receive_commands_unfold, running.
    rewrite (transport_at_eof reader' _ Hrest). cbn [andb negb].
    eexists _, _. split; [done|]. by apply transport_at_eof.
  - assert (length (pending reader') + 2 ≤ fuel)%nat as Hfuel' by (rewrite Hrest; lia).
    change (CommandTransport.mk reader' []) with (CommandTransport.__init__ reader').
    destruct command as [command|]; [|by apply IH].
    destruct (LanternClient._on_command_callback self) as [cb|] eqn:Hcb;
      [|by apply IH].
    pose proof (callback_returns_or_raises_Exception cb command w eq_refl) as Hok.
    destruct (cb command w) as [[[]|e|] w']; cbn [fst] in Hok;
      [by apply IH|rewrite Hok; by apply IH|done].
Qed.

End LoopOverBytes.

(** X10. Over a finite stream of arbitrary bytes (frames, parts of frames
    or neither) the receive loop of a running client returns normally, with
    the stream at its end, as long as the callback returns or raises an
    [Exception]: no byte sequence makes the loop raise or spin. *)
Theorem _receive_commands_any_bytes {R : Type} `{!Reader R} `{!FiniteStream R}
    {W : Type} (registry : gmap Z command_class) (self : LanternClient.t W)
    (reader : R) (w : W) (fuel : nat) :
  LanternClient._running self = true →
  (∀ on_command_callback command w,
     LanternClient._on_command_callback self = Some on_command_callback →
     match (on_command_callback command w).1 with
     | Ret _ => True
     | Raise e => is_Exception e = true
     | OutOfFuel => False
     end) →
  (length (pending reader) + 2 ≤ fuel)%nat →
  ∃ transport w',
    LanternClient._receive_commands fuel registry self
      (CommandTransport.__init__ reader) w = Ret (transport, w')
    ∧ CommandTransport.at_eof transport = true.
Proof. intros Hrunning Hcb Hfuel. by apply _receive_commands_bytes. Qed.

Lemma _receive_commands_any_bytes_witness :
  ∃ transport w',
    LanternClient._receive_commands 9 module_registry
      (LanternClient.__init__ None (Some failing_callback))
      (CommandTransport.__init__
         (OneByteAtATimeReader.mk
            (DefaultReader.mk
               [Byte.x12; Byte.x00; Byte.x00; Byte.x20; Byte.xff; Byte.xff;
                Byte.x01])))
      [] = Ret (transport, w')
    ∧ CommandTransport.at_eof transport = true.
Proof.
  refine (_receive_commands_any_bytes module_registry
            (LanternClient.__init__ None (Some failing_callback))
            (OneByteAtATimeReader.mk
               (DefaultReader.mk
                  [Byte.x12; Byte.x00; Byte.x00; Byte.x20; Byte.xff; Byte.xff;
                   Byte.x01]))
            [] 9 _ _ _).
  - reflexivity.
  - intros cb command w [= <-]. reflexivity.
  - simpl. lia.
Defined.

Section LoopOverBoundedReads.
Context {R : Type} `{!Reader R} {W : Type}.

Hypothesis read_at_most : ∀ (reader : R) n, 0 < n → len (read reader n).1 ≤ n.

Variable self : LanternClient.t W.
Hypothesis callback_raises_Exception :
  ∀ on_command_callback command w e,
    LanternClient._on_command_callback self = Some on_command_callback →
    (on_command_callback command w).1 = Raise e → is_Exception e = true.

(** The loop calls [recv] on an empty buffer only: a buffer that is not
    empty goes with a stream at its end, which the loop tests first. *)
Lemma _receive_commands_safe fuel registry (transport : CommandTransport.t R) w :
  CommandTransport._read_buffer transport = []
  ∨ CommandTransport.at_eof transport = true →
  ∀ e, LanternClient._receive_commands fuel registry self transport w ≠ Raise e.
Proof.
  revert transport w. induction fuel as [|fuel IH]; intros transport w Hinv e;
    rewrite _receive_commands_unfold;
    destruct (LanternClient._running self); cbn [andb]; [|done| |done];
    destruct (CommandTransport.at_eof transport) eqn:Heof; cbn [negb]; try done.
  destruct Hinv as [Hbuf|Heof']; [|congruence].
  pose proof (recv_safe read_at_most (S fuel) registry transport Hbuf) as Hsafe.
  destruct (CommandTransport.recv (S fuel) registry transport)
    as [[command transport']| |]; [|done|done].
  cbn [mbind outcome_bind].
  assert (CommandTransport._read_buffer transport' = []
          ∨ CommandTransport.at_eof transport' = true) as Hinv' by tauto.
  destruct command as [command|]; [|by apply IH].
  destruct (LanternClient._on_command_callback self) as [cb|] eqn:Hcb;
    [|by apply IH].
  pose proof (callback_raises_Exception cb command w) as Hok.
  destruct (cb command w) as [[[]|e'|] w']; cbn [fst] in Hok;
    [by apply IH| |done].
  rewrite (Hok e') by done. by apply IH.
Qed.

End LoopOverBoundedReads.

(** X11. Over every reader whose [read(n)] returns at most [n] bytes, the
    receive loop, entered with a fresh transport, never raises as long as the
    callback raises nothing but [Exception]s: it tests [at_eof()] before
    every [recv()], so it never calls [recv()] on a buffer that a truncated
    frame left behind. *)
Theorem _receive_commands_never_raises {R : Type} `{!Reader R} {W : Type}
    (registry : gmap Z command_class) (self : LanternClient.t W)
    (reader : R) (w : W) (fuel : nat) :
  (∀ (reader : R) n, 0 < n → len (read reader n).1 ≤ n) →
  (∀ on_command_callback command w e,
     LanternClient._on_command_callback self = Some on_command_callback →
     (on_command_callback command w).1 = Raise e → is_Exception e = true) →
  ∀ e,
    LanternClient._receive_commands fuel registry self
      (CommandTransport.__init__ reader) w ≠ Raise e.
Proof.
  intros Hbound Hcb. apply (_receive_commands_safe Hbound self Hcb). by left.
Qed.

Lemma _receive_commands_never_raises_witness :
  (∀ e,
     LanternClient._receive_commands 9 module_registry
       (LanternClient.__init__ None (Some failing_callback))
       (CommandTransport.__init__
          (OneByteAtATimeReader.mk
             (DefaultReader.mk
                [Byte.x20; Byte.x00; Byte.x03; Byte.x01; Byte.x02])))
       [] ≠ Raise e)
  ∧ (∀ e,
       LanternClient._receive_commands 9 module_registry
         (LanternClient.__init__ None (Some failing_callback))
         (CommandTransport.__init__
            (DefaultReader.mk
               [Byte.x20; Byte.x00; Byte.x03; Byte.x01; Byte.x02]))
         [] ≠ Raise e).
Proof.
  split.
  - refine (_receive_commands_never_raises module_registry
              (LanternClient.__init__ None (Some failing_callback))
              (OneByteAtATimeReader.mk
                 (DefaultReader.mk
                    [Byte.x20; Byte.x00; Byte.x03; Byte.x01; Byte.x02]))
              [] 9 _ _).
    + exact OneByteAtATimeReader_read_bound.
    + intros cb command w e [= <-] [= <-]. reflexivity.
  - refine (_receive_commands_never_raises module_registry
              (LanternClient.__init__ None (Some failing_callback))
              (DefaultReader.mk
                 [Byte.x20; Byte.x00; Byte.x03; Byte.x01; Byte.x02])
              [] 9 _ _).
    + exact DefaultReader_read_bound.
    + intros cb command w e [= <-] [= <-]. reflexivity.
Defined.

(** ** Lantern *)

(** X12. [on_command] raises for one kind of command only, a [Color]
    command whose value is not 3 bytes long; what it raises then is an
    [Exception] ([struct.error], or [TypeError] without a value) and the
    lantern is left as it was.  On every other command it returns. *)
Theorem on_command_raises_on_malformed_color (command : command) (self : Lantern.t) :
  (BaseCommand.cls command = CommandColor
   ∧ ¬ (∃ b0 b1 b2, BaseCommand.value command = Some [b0; b1; b2]) →
   ∃ e, Lantern.on_command command self = (Raise e, self)
     ∧ is_Exception e = true)
  ∧ (¬ (BaseCommand.cls command = CommandColor
        ∧ ¬ (∃ b0 b1 b2, BaseCommand.value command = Some [b0; b1; b2])) →
     (Lantern.on_command command self).1 = Ret ()).
Proof.
  unfold Lantern.on_command, Lantern.isinstance, CommandColor_.rgb. split.
  - intros [Hcls Hvalue]. rewrite Hcls.
    rewrite !bool_decide_false by done. rewrite bool_decide_true by done.
    destruct (BaseCommand.value command) as [[|b0 [|b1 [|b2 [|b3 v]]]]|];
      cbn [struct.unpack_BBB]; try by eexists.
    destruct Hvalue. by eexists _, _, _.
  - intros Hok. repeat case_bool_decide; try done.
    destruct (BaseCommand.value command) as [[|b0 [|b1 [|b2 [|b3 v]]]]|];
      cbn [struct.unpack_BBB]; try done.
    all: destruct Hok; split; [done|]; by intros (? & ? & ? & [=]).
Qed.

Lemma on_command_raises_on_malformed_color_witness :
  (∃ e,
     Lantern.on_command (BaseCommand.mk CommandColor (Some [Byte.x01]) 1)
       (Lantern.mk (1, 2, 3) true)
     = (Raise e, Lantern.mk (1, 2, 3) true)
     ∧ is_Exception e = true)
  ∧ (Lantern.on_command (BaseCommand.mk CommandOff None 0)
       (Lantern.mk (1, 2, 3) true)).1 = Ret ().
Proof.
  split.
  - apply (proj1 (on_command_raises_on_malformed_color
                    (BaseCommand.mk CommandColor (Some [Byte.x01]) 1)
                    (Lantern.mk (1, 2, 3) true))).
    split; [reflexivity|]. by intros (? & ? & ? & [=]).
  - apply (proj2 (on_command_raises_on_malformed_color
                    (BaseCommand.mk CommandOff None 0)
                    (Lantern.mk (1, 2, 3) true))).
    by intros [[=] _].
Defined.

Lemma default_last_cons {A} (x y : A) (l : list A) :
  default x (last (y :: l)) = default y (last l).
Proof.
  revert x y. induction l as [|z l IH]; intros x y; [done|].
  change (last (y :: z :: l)) with (last (z :: l)).
  by rewrite (IH x z), (IH y z).
Qed.

Lemma on_command_switches command self :
  Lantern._active (Lantern.on_command command self).2
    = default (Lantern._active self) (switches_to command).
Proof.
  unfold Lantern.on_command, switches_to.
  destruct (Lantern.isinstance command CommandOn); [done|].
  destruct (Lantern.isinstance command CommandOff); [done|].
  destruct (Lantern.isinstance command CommandColor); [|done].
  by destruct (CommandColor_.rgb command).
Qed.

Lemma on_command_colours command self :
  Lantern._color (Lantern.on_command command self).2
    = default (Lantern._color self) (colours_to command).
Proof.
  unfold Lantern.on_command, colours_to, Lantern.isinstance.
  destruct (decide (BaseCommand.cls command = CommandOn)) as [Hon|Hon].
  { rewrite Hon. rewrite bool_decide_true by done.
    by rewrite bool_decide_false by done. }
  rewrite (bool_decide_false _ Hon).
  destruct (decide (BaseCommand.cls command = CommandOff)) as [Hoff|Hoff].
  { rewrite Hoff. rewrite bool_decide_true by done.
    by rewrite bool_decide_false by done. }
  rewrite (bool_decide_false _ Hoff).
  case_bool_decide; [|done]. by destruct (CommandColor_.rgb command).
Qed.

(** X13. After any sequence of commands the lantern is on or off as the
    last [On] or [Off] command of the sequence says, and has the colour of
    the last [Color] command with a 3-byte value; without such a command it
    keeps what it had.  Commands of any other kind, and calls that raised,
    change nothing. *)
Theorem lantern_follows_last_command (commands : list command) (self : Lantern.t) :
  Lantern._active (lantern_after commands self)
    = default (Lantern._active self) (last (omap switches_to commands))
  ∧ Lantern._color (lantern_after commands self)
    = default (Lantern._color self) (last (omap colours_to commands)).
Proof.
  unfold lantern_after. revert self.
  induction commands as [|command commands IH]; intros self; [done|].
  cbn [foldl omap list_omap].
  destruct (IH (Lantern.on_command command self).2) as [-> ->].
  rewrite on_command_switches, on_command_colours.
  split.
  - destruct (switches_to command); [|done]. by rewrite default_last_cons.
  - destruct (colours_to command); [|done]. by rewrite default_last_cons.
Qed.

(** ** Connections *)

Lemma _connect_unfold {R : Type} `{!Reader R} {W : Type}
    fuel (self : LanternClient.t W) (net : LanternClient.network R) :
  LanternClient._connect fuel self net =
    if LanternClient._running self
       && negb (bool_decide (LanternClient._num_connections_to_process self = Some 0))
    then
      match fuel with
      | O => OutOfFuel
      | S fuel' =>
          match net with
          | Some reader :: net' =>
              Ret (Some (CommandTransport.__init__ reader),
                   LanternClient.mk (LanternClient._running self)
                     (match LanternClient._num_connections_to_process self with
                      | Some k => Some (k - 1)
                      | None => None
                      end)
                     (LanternClient._on_command_callback self),
                   net')
          | None :: net' => LanternClient._connect fuel' self net'
          | [] => LanternClient._connect fuel' self []
          end
      end
    else Ret (None, self, net).
Proof. by destruct fuel. Qed.

Lemma _connect_skips_refusals {R : Type} `{!Reader R} {W : Type}
    (self : LanternClient.t W) (k : nat) (reader : R)
    (net : LanternClient.network R) (fuel : nat) :
  (k < fuel)%nat →
  LanternClient._running self = true →
  LanternClient._num_connections_to_process self ≠ Some 0 →
  LanternClient._connect fuel self (replicate k None ++ Some reader :: net)
  = Ret (Some (CommandTransport.mk reader []),
         LanternClient.mk true
           ((λ n, n - 1) <$> LanternClient._num_connections_to_process self)
           (LanternClient._on_command_callback self),
         net).
Proof.
  intros Hfuel Hrunning Hbound. revert fuel Hfuel.
  induction k as [|k IH]; intros fuel Hfuel;
    (destruct fuel as [|fuel]; [lia|]);
    rewrite _connect_unfold, Hrunning, bool_decide_false by done;
    cbn [andb negb replicate app].
  - by destruct (LanternClient._num_connections_to_process self).
  - apply IH. lia.
Qed.

(** X14. A running client whose bound on connections is not used up keeps
    trying through refused attempts: after [k] refusals it takes the first
    connection accepted, with a fresh transport (empty buffer) over it, counts
    it against the bound if there is one, and leaves the rest of the network
    untouched.  A client that is stopped, or whose bound is 0, makes no
    attempt at all. *)
Theorem _connect_after_refusals {R : Type} `{!Reader R} {W : Type}
    (self : LanternClient.t W) (k : nat) (reader : R)
    (net : LanternClient.network R) (fuel : nat) :
  (k < fuel)%nat →
  (LanternClient._running self = true
   ∧ LanternClient._num_connections_to_process self ≠ Some 0 →
   LanternClient._connect fuel self (replicate k None ++ Some reader :: net)
   = Ret (Some (CommandTransport.mk reader []),
          LanternClient.mk true
            ((λ n, n - 1) <$> LanternClient._num_connections_to_process self)
            (LanternClient._on_command_callback self),
          net))
  ∧ (¬ (LanternClient._running self = true
        ∧ LanternClient._num_connections_to_process self ≠ Some 0) →
     LanternClient._connect fuel self (replicate k None ++ Some reader :: net)
     = Ret (None, self, replicate k None ++ Some reader :: net)).
Proof.
  intros Hfuel. split.
  - intros [Hrunning Hbound]. by apply _connect_skips_refusals.
  - intros Hno. rewrite _connect_unfold.
    destruct (LanternClient._running self); [|done].
    case_bool_decide as Hzero; [done|]. by destruct Hno.
Qed.

Lemma _connect_after_refusals_witness :
  LanternClient._connect 3 (LanternClient.__init__ (W := unit) (Some 2) None)
    (replicate 2 None ++ Some (DefaultReader.mk [Byte.x12]) :: [None])
  = Ret (Some (CommandTransport.mk (DefaultReader.mk [Byte.x12]) []),
         LanternClient.mk true (Some 1) None, [None])
  ∧ LanternClient._connect 3
      (LanternClient.handle_interrupt (LanternClient.__init__ (W := unit) (Some 2) None))
      (replicate 2 None ++ Some (DefaultReader.mk [Byte.x12]) :: [None])
    = Ret (None,
           LanternClient.handle_interrupt
             (LanternClient.__init__ (W := unit) (Some 2) None),
           replicate 2 None ++ Some (DefaultReader.mk [Byte.x12]) :: [None]).
Proof.
  split.
  - apply (proj1 (_connect_after_refusals
                    (LanternClient.__init__ (W := unit) (Some 2) None) 2
                    (DefaultReader.mk [Byte.x12]) [None] 3 ltac:(lia))).
    split; [reflexivity|discriminate].
  - apply (proj2 (_connect_after_refusals
                    (LanternClient.handle_interrupt
                       (LanternClient.__init__ (W := unit) (Some 2) None)) 2
                    (DefaultReader.mk [Byte.x12]) [None] 3 ltac:(lia))).
    by intros [[=] _].
Defined.

Lemma called_on_each_app {W : Type} (cb : LanternClient.callback W)
    registry commands1 commands2 (w : W) :
  called_on_each cb registry (commands1 ++ commands2) w
  = called_on_each cb registry commands2 (called_on_each cb registry commands1 w).
Proof.
  revert w. induction commands1 as [|c commands1 IH]; intros w; [done|].
  cbn [app called_on_each].
  by destruct (over_the_wire registry c) as [[command|]| |].
Qed.

Lemma loop_unfold {R : Type} `{!Reader R} {W : Type}
    fuel registry (self : LanternClient.t W) (net : LanternClient.network R) w :
  LanternClient.loop fuel registry self net w =
    if LanternClient._running self then
      match fuel with
      | O => OutOfFuel
      | S fuel' =>
          '(transport, self, net) ← LanternClient._connect fuel self net;
          match transport with
          | None => Ret (self, net, w)
          | Some transport =>
              '(_, w) ← LanternClient._receive_commands fuel registry self transport w;
              LanternClient.loop fuel' registry self net w
          end
      end
    else Ret (self, net, w).
Proof. by destruct fuel. Qed.

(** X15. A client bound to [n] connections goes through exactly the first
    [n] connections the network accepts, refusals in between included: on
    each it calls the callback on every command that arrives, in order,
    whatever the callback raised before; then it returns, with the rest of the
    network untouched and the bound at 0. *)
Theorem loop_bounded_connections {R : Type} `{!Reader R} `{!FiniteStream R}
    {W : Type} (on_command_callback : LanternClient.callback W)
    (registry : gmap Z command_class)
    (connections : list (nat * R * list command))
    (rest : LanternClient.network R) (w : W) (fuel : nat) :
  (∀ command w,
     match (on_command_callback command w).1 with
     | Ret _ => True
     | Raise e => is_Exception e = true
     | OutOfFuel => False
     end) →
  Forall (λ '(refused, reader, commands),
            encode_all commands [] = Ret (pending reader)
            ∧ (refused + length (pending reader) + length connections + 2
               ≤ fuel)%nat)
    connections →
  (length connections < fuel)%nat →
  LanternClient.loop fuel registry
    (LanternClient.__init__ (Some (Z.of_nat (length connections)))
       (Some on_command_callback))
    (attempts connections ++ rest) w
  = Ret (LanternClient.mk true (Some 0) (Some on_command_callback), rest,
         called_on_each on_command_callback registry
           (concat ((λ connection, connection.2) <$> connections)) w).
Proof.
  intros Hcb. unfold LanternClient.__init__. revert fuel w.
  induction connections as [|[[refused reader] commands] connections IH];
    intros fuel w Hall Hfuel.
  - destruct fuel as [|fuel]; [cbn in Hfuel; lia|].
    rewrite loop_unfold. cbn [LanternClient._running].
    rewrite _connect_unfold. cbn. done.
  - apply Forall_cons in Hall as [[Henc Hbound] Hall].
    cbn [length] in *. destruct fuel as [|fuel]; [lia|].
    rewrite loop_unfold. cbn [LanternClient._running].
    unfold attempts. cbn [fmap list_fmap concat]. rewrite <- !app_assoc.
    cbn [app].
    rewrite (_connect_skips_refusals _ refused reader _ (S fuel))
      by (lia || done || (cbn; intros [=]; lia)).
    cbn [mbind outcome_bind LanternClient._num_connections_to_process
         LanternClient._on_command_callback fmap option_fmap option_map].
    pose proof Henc as Hframes.
    apply encode_all_Ret in Hframes as (frames & Hframes & Hdata).
    cbn [app] in Hdata.
    destruct (_receive_commands_frames on_command_callback Hcb (S fuel) registry
                (LanternClient.mk true (Some (Z.of_nat (S (length connections)) - 1))
                   (Some on_command_callback))
                reader commands frames w) as (reader' & Hrest & Hrun);
      [done|done|done|done|lia|].
    change (CommandTransport.mk reader []) with (CommandTransport.__init__ reader).
    rewrite Hrun. cbn [mbind outcome_bind].
    replace (Z.of_nat (S (length connections)) - 1)
      with (Z.of_nat (length connections)) by lia.
    fold (attempts connections). rewrite IH.
    + cbn [fmap list_fmap concat snd]. by rewrite called_on_each_app.
    + eapply Forall_impl; [done|]. intros [[??]?] [? ?]. split; [done|lia].
    + lia.
Qed.

Lemma loop_bounded_connections_witness :
  LanternClient.loop 12 module_registry
    (LanternClient.__init__ (Some 2) (Some failing_callback))
    (attempts
       [(1%nat, OneByteAtATimeReader.mk (DefaultReader.mk [Byte.x12; Byte.x00; Byte.x00]),
         [BaseCommand.mk CommandOn None 0]);
        (0%nat, OneByteAtATimeReader.mk (DefaultReader.mk [Byte.x13; Byte.x00; Byte.x00]),
         [BaseCommand.mk CommandOff None 0])]
     ++ [Some (OneByteAtATimeReader.mk (DefaultReader.mk [Byte.x12; Byte.x00; Byte.x00]))])
    []
  = Ret (LanternClient.mk true (Some 0) (Some failing_callback),
         [Some (OneByteAtATimeReader.mk (DefaultReader.mk [Byte.x12; Byte.x00; Byte.x00]))],
         [BaseCommand.mk CommandOn None 0; BaseCommand.mk CommandOff None 0]).
Proof.
  refine (loop_bounded_connections failing_callback module_registry
            [(1%nat, OneByteAtATimeReader.mk (DefaultReader.mk [Byte.x12; Byte.x00; Byte.x00]),
              [BaseCommand.mk CommandOn None 0]);
             (0%nat, OneByteAtATimeReader.mk (DefaultReader.mk [Byte.x13; Byte.x00; Byte.x00]),
              [BaseCommand.mk CommandOff None 0])]
            [Some (OneByteAtATimeReader.mk (DefaultReader.mk [Byte.x12; Byte.x00; Byte.x00]))]
            [] 12 _ _ _).
  - intros command w. reflexivity.
  - repeat constructor; simpl; lia.
  - simpl. lia.
Defined.

(** ** Server *)



Lemma _send_commands_frames commands frames writer :
  Forall2 (λ c frame, CommandProtocol.encode c = Ret frame) commands frames →
  LanternServer._send_commands commands writer
  = (Ret (), writer ++ (Write <$> frames)).
Proof.
  intros Hall. revert writer.
  induction Hall as [|c frame commands frames Henc Hall IH]; intros writer.
  - cbn. by rewrite app_nil_r.
  - cbn [LanternServer._send_commands]. unfold send. rewrite Henc, IH.
    cbn [fmap list_fmap]. by rewrite <- app_assoc.
Qed.

Lemma _send_commands_until_failure before bad after frames writer :
  Forall2 (λ c frame, CommandProtocol.encode c = Ret frame) before frames →
  CommandProtocol.encode bad = Raise StructError →
  LanternServer._send_commands (before ++ bad :: after) writer
  = (Raise StructError, writer ++ (Write <$> frames)).
Proof.
  intros Hall Hbad. revert writer.
  induction Hall as [|c frame commands frames Henc Hall IH]; intros writer.
  - cbn [app LanternServer._send_commands]. unfold send. rewrite Hbad.
    cbn. by rewrite app_nil_r.
  - cbn [app LanternServer._send_commands]. unfold send. rewrite Henc, IH.
    cbn [fmap list_fmap]. by rewrite <- app_assoc.
Qed.

Lemma _handle_server_frames (self : LanternServer.t) (writer : list writer_call) :
  ∀ frames,
    Forall2 (λ c frame, CommandProtocol.encode c = Ret frame)
      (LanternServer._commands self) frames →
    LanternServer._handle_server self writer
    = (Ret (),
       (match LanternServer._num_connections_to_serve self with
        | Some k =>
            LanternServer.mk (Some (k - 1)) (LanternServer._commands self)
              (if bool_decide (k = 1) then true
               else LanternServer._loop_stopped self)
        | None => self
        end,
        writer ++ (Write <$> frames) ++ [Close])).
Proof.
  unfold LanternServer._handle_server.
  intros frames Hall. rewrite (_send_commands_frames _ _ _ Hall).
  rewrite <- app_assoc.
  destruct (LanternServer._num_connections_to_serve self) as [k|]; [|done].
  do 3 f_equal. by rewrite (bool_decide_ext (k - 1 = 0) (k = 1)) by lia.
Qed.

(** X16. Serving a connection, the server writes one frame per command of
    its script, in order, and then closes the writer; it counts the connection
    against its bound, if it has one, and stops its loop when the bound
    reaches 0.  If a command of the script cannot be encoded, the frames of
    the commands before it are written, [struct.error] is raised, the writer
    is not closed and the connection is not counted. *)
Theorem _handle_server_script (self : LanternServer.t) (writer : list writer_call) :
  (∀ frames,
     Forall2 (λ c frame, CommandProtocol.encode c = Ret frame)
       (LanternServer._commands self) frames →
     LanternServer._handle_server self writer
     = (Ret (),
        (match LanternServer._num_connections_to_serve self with
         | Some k =>
             LanternServer.mk (Some (k - 1)) (LanternServer._commands self)
               (if bool_decide (k = 1) then true
                else LanternServer._loop_stopped self)
         | None => self
         end,
         writer ++ (Write <$> frames) ++ [Close])))
  ∧ (∀ before bad after frames,
       LanternServer._commands self = before ++ bad :: after →
       Forall2 (λ c frame, CommandProtocol.encode c = Ret frame) before frames →
       CommandProtocol.encode bad = Raise StructError →
       LanternServer._handle_server self writer
       = (Raise StructError, (self, writer ++ (Write <$> frames)))).
Proof.
  split; [apply _handle_server_frames|].
  unfold LanternServer._handle_server.
  intros before bad after frames Hscript Hall Hbad.
  by rewrite Hscript, (_send_commands_until_failure _ _ _ _ _ Hall Hbad).
Qed.

Lemma _handle_server_script_witness :
  LanternServer._handle_server
    (LanternServer.mk (Some 1)
       [BaseCommand.mk CommandOn None 0;
        BaseCommand.mk CommandColor (Some [Byte.x01; Byte.x02; Byte.x03]) 3]
       false)
    []
  = (Ret (),
     (LanternServer.mk (Some 0)
        [BaseCommand.mk CommandOn None 0;
         BaseCommand.mk CommandColor (Some [Byte.x01; Byte.x02; Byte.x03]) 3]
        true,
      [Write [Byte.x12; Byte.x00; Byte.x00];
       Write [Byte.x20; Byte.x00; Byte.x03; Byte.x01; Byte.x02; Byte.x03];
       Close]))
  ∧ LanternServer._handle_server
      (LanternServer.mk (Some 1)
         [BaseCommand.mk CommandOn None 0;
          BaseCommand.mk CommandColor None 3;
          BaseCommand.mk CommandOff None 0]
         false)
      []
    = (Raise StructError,
       (LanternServer.mk (Some 1)
          [BaseCommand.mk CommandOn None 0;
           BaseCommand.mk CommandColor None 3;
           BaseCommand.mk CommandOff None 0]
          false,
        [Write [Byte.x12; Byte.x00; Byte.x00]])).
Proof.
  split.
  - refine (proj1 (_handle_server_script
                     (LanternServer.mk (Some 1)
                        [BaseCommand.mk CommandOn None 0;
                         BaseCommand.mk CommandColor
                           (Some [Byte.x01; Byte.x02; Byte.x03]) 3]
                        false)
                     [])
              [[Byte.x12; Byte.x00; Byte.x00];
               [Byte.x20; Byte.x00; Byte.x03; Byte.x01; Byte.x02; Byte.x03]] _).
    repeat constructor.
  - refine (proj2 (_handle_server_script
                     (LanternServer.mk (Some 1)
                        [BaseCommand.mk CommandOn None 0;
                         BaseCommand.mk CommandColor None 3;
                         BaseCommand.mk CommandOff None 0]
                        false)
                     [])
              [BaseCommand.mk CommandOn None 0]
              (BaseCommand.mk CommandColor None 3)
              [BaseCommand.mk CommandOff None 0]
              [[Byte.x12; Byte.x00; Byte.x00]] _ _ _).
    + reflexivity.
    + repeat constructor.
    + reflexivity.
Defined.

(** ** From the server's script to the client's callback *)





(** ** Test readers *)

(** X18. The readers of the test suite neither lose nor reorder bytes:
    what a [read] returns, followed by what the reader keeps, is the data it
    had, for every [n] (negative ones included, which Python takes from the
    end).  For [n ≥ 0] [DefaultReader] returns [min(n, len(data))] bytes and
    is at its end afterwards exactly when it had at most [n]; the
    one-byte-at-a-time reader returns one byte, whatever [n], as long as it
    has one. *)
Theorem readers_keep_the_bytes (data : bytes) (n : Z) :
  (DefaultReader.read (DefaultReader.mk data) n).1
     ++ DefaultReader._data (DefaultReader.read (DefaultReader.mk data) n).2
   = data
  ∧ (0 ≤ n →
     len (DefaultReader.read (DefaultReader.mk data) n).1 = Z.min n (len data)
     ∧ (DefaultReader.at_eof (DefaultReader.read (DefaultReader.mk data) n).2
          = true ↔ len data ≤ n))
  ∧ (OneByteAtATimeReader.read (OneByteAtATimeReader.mk (DefaultReader.mk data)) n).1
      = take 1 data
  ∧ DefaultReader._data
      (OneByteAtATimeReader.super
         (OneByteAtATimeReader.read
            (OneByteAtATimeReader.mk (DefaultReader.mk data)) n).2)
    = drop 1 data.
Proof.
  unfold OneByteAtATimeReader.read, DefaultReader.read, DefaultReader.at_eof.
  cbn [fst snd DefaultReader._data OneByteAtATimeReader.super].
  split_and!.
  - unfold slice_to, slice_from. apply take_drop.
  - intros Hn. rewrite slice_to_nonneg, slice_from_nonneg by done. split.
    + len_lia.
    + rewrite bool_decide_eq_true. len_lia.
  - by rewrite slice_to_nonneg by lia.
  - by rewrite slice_from_nonneg by lia.
Qed.

(** ** Log format *)

Lemma digit_inj d1 d2 :
  (d1 < 16)%N → (d2 < 16)%N → Hex.digit d1 = Hex.digit d2 → d1 = d2.
Proof.
  intros H1 H2. unfold Hex.digit.
  assert (N.to_nat d1 < 16)%nat as Hn1 by lia.
  assert (N.to_nat d2 < 16)%nat as Hn2 by lia.
  intros Heq. apply N2Nat.inj. revert Hn1 Hn2 Heq.
  generalize (N.to_nat d1) (N.to_nat d2). clear. intros n1 n2 Hn1 Hn2.
  do 16 (destruct n1 as [|n1]; [do 16 (destruct n2 as [|n2]; [by cbn|]); lia|]).
  lia.
Qed.

Lemma format_02x_inj b1 b2 : Hex.format_02x b1 = Hex.format_02x b2 → b1 = b2.
Proof.
  unfold Hex.format_02x. intros [= Hhi Hlo].
  pose proof (Byte.to_N_bounded b1) as Hb1.
  pose proof (Byte.to_N_bounded b2) as Hb2.
  apply digit_inj in Hhi;
    [|apply N.Div0.div_lt_upper_bound; lia|apply N.Div0.div_lt_upper_bound; lia].
  apply digit_inj in Hlo; [|apply N.mod_lt; lia|apply N.mod_lt; lia].
  assert (Byte.to_N b1 = Byte.to_N b2) as Heq.
  { rewrite (N.div_mod (Byte.to_N b1) 16), (N.div_mod (Byte.to_N b2) 16) by lia.
    by rewrite Hhi, Hlo. }
  pose proof (Byte.of_to_N b1) as H1. rewrite Heq, Byte.of_to_N in H1.
  by injection H1.
Qed.

Lemma hex_encode_cons b b' s :
  hex_encode (b :: b' :: s)
  = String (Hex.digit (Byte.to_N b / 16))
      (String (Hex.digit (Byte.to_N b mod 16))
         (String ":" (hex_encode (b' :: s)))).
Proof. reflexivity. Qed.

(** X19. [hex_encode] shows a message of [n] bytes in [3n - 1] characters
    (none for an empty message), and two different messages never look the
    same in the log. *)
Theorem hex_encode_faithful (message1 message2 : bytes) :
  String.length (hex_encode message1) = (3 * length message1 - 1)%nat
  ∧ (hex_encode message1 = hex_encode message2 → message1 = message2).
Proof.
  split.
  - induction message1 as [|b [|b' s] IH]; [done|done|].
    rewrite hex_encode_cons. cbn [String.length length] in *. lia.
  - revert message2.
    induction message1 as [|b1 [|b1' s1] IH]; intros [|b2 [|b2' s2]];
      try done.
    + intros Heq. f_equal. by apply format_02x_inj.
    + rewrite !hex_encode_cons. intros [= Hhi Hlo Hrest].
      f_equal; [|by apply IH].
      apply format_02x_inj. unfold Hex.format_02x. by rewrite Hhi, Hlo.
Qed.

Lemma hex_encode_faithful_witness :
  String.length (hex_encode [Byte.x20; Byte.x00; Byte.x03]) = (3 * 3 - 1)%nat
  ∧ (hex_encode [Byte.x20; Byte.x00; Byte.x03] = hex_encode [Byte.x20; Byte.x00; Byte.x03] →
     [Byte.x20; Byte.x00; Byte.x03] = [Byte.x20; Byte.x00; Byte.x03]).
Proof.
  apply (hex_encode_faithful [Byte.x20; Byte.x00; Byte.x03]
           [Byte.x20; Byte.x00; Byte.x03]).
Defined.

Lemma readers_keep_the_bytes_witness :
  len (DefaultReader.read (DefaultReader.mk [Byte.x20; Byte.x00]) 3).1
    = Z.min 3 (len [Byte.x20; Byte.x00])
  ∧ (DefaultReader.at_eof
       (DefaultReader.read (DefaultReader.mk [Byte.x20; Byte.x00]) 3).2 = true
     ↔ len [Byte.x20; Byte.x00] ≤ 3).
Proof.
  apply (proj1 (proj2 (readers_keep_the_bytes [Byte.x20; Byte.x00] 3))). lia.
Defined.

(** ** The lantern behind a client *)

Lemma on_command_outcome command self :
  match (Lantern.on_command command self).1 with
  | Ret _ => True
  | Raise e => is_Exception e = true
  | OutOfFuel => False
  end.
Proof.
  unfold Lantern.on_command, CommandColor_.rgb.
  destruct (Lantern.isinstance command CommandOn); [done|].
  destruct (Lantern.isinstance command CommandOff); [done|].
  destruct (Lantern.isinstance command CommandColor); [|done].
  by destruct (BaseCommand.value command) as [[|b0 [|b1 [|b2 [|b3 v]]]]|].
Qed.

(** X20. No finite sequence of bytes stops a client that drives a lantern:
    whatever arrives (frames, unknown types, [Color] frames of the wrong
    size, a frame cut short), the receive loop returns normally with the
    stream at its end, and so does the session of a client bound to one
    connection. *)
Theorem lantern_client_survives_any_bytes {R : Type} `{!Reader R} `{!FiniteStream R}
    (registry : gmap Z command_class) (reader : R) (lantern : Lantern.t)
    (fuel : nat) :
  (length (pending reader) + 2 ≤ fuel)%nat →
  (∃ transport lantern',
     LanternClient._receive_commands fuel registry
       (LanternClient.__init__ None (Some Lantern.on_command))
       (CommandTransport.__init__ reader) lantern
     = Ret (transport, lantern')
     ∧ CommandTransport.at_eof transport = true)
  ∧ ∃ lantern',
      LanternClient.loop fuel registry
        (LanternClient.__init__ (Some 1) (Some Lantern.on_command))
        [Some reader] lantern
      = Ret (LanternClient.mk true (Some 0) (Some Lantern.on_command), [],
             lantern').
Proof.
  intros Hfuel. split.
  - apply _receive_commands_bytes; [done| |done].
    intros cb command w [= <-]. apply on_command_outcome.
  - destruct fuel as [|[|fuel]]; [lia|lia|].
    cbn [LanternClient.loop LanternClient.__init__ LanternClient._running
         LanternClient._connect LanternClient._num_connections_to_process
         LanternClient._on_command_callback].
    rewrite bool_decide_false by done. cbn [andb negb mbind outcome_bind].
    assert (∀ cb command w,
              LanternClient._on_command_callback
                (LanternClient.mk true (Some (1 - 1)) (Some Lantern.on_command))
                = Some cb →
              match (cb command w).1 with
              | Ret _ => True
              | Raise e => is_Exception e = true
              | OutOfFuel => False
              end) as Hcb
      by (intros cb command w [= <-]; apply on_command_outcome).
    destruct (_receive_commands_bytes
                (LanternClient.mk true (Some (1 - 1)) (Some Lantern.on_command))
                eq_refl Hcb (S (S fuel)) registry reader lantern Hfuel)
      as (transport & lantern' & Hrun & _).
    rewrite Hrun. cbn [mbind outcome_bind]. exists lantern'.
    cbn [LanternClient.loop LanternClient.__init__ LanternClient._running
         LanternClient._connect LanternClient._num_connections_to_process
         LanternClient._on_command_callback].
    rewrite bool_decide_true by done. done.
Qed.

Lemma lantern_client_survives_any_bytes_witness :
  (∃ transport lantern',
     LanternClient._receive_commands 9 module_registry
       (LanternClient.__init__ None (Some Lantern.on_command))
       (CommandTransport.__init__
          (OneByteAtATimeReader.mk
             (DefaultReader.mk
                [Byte.x20; Byte.x00; Byte.x01; Byte.x07; Byte.x12; Byte.x00;
                 Byte.x00])))
       Lantern.__init__
     = Ret (transport, lantern')
     ∧ CommandTransport.at_eof transport = true)
  ∧ ∃ lantern',
      LanternClient.loop 9 module_registry
        (LanternClient.__init__ (Some 1) (Some Lantern.on_command))
        [Some (OneByteAtATimeReader.mk
                 (DefaultReader.mk
                    [Byte.x20; Byte.x00; Byte.x01; Byte.x07; Byte.x12; Byte.x00;
                     Byte.x00]))]
        Lantern.__init__
      = Ret (LanternClient.mk true (Some 0) (Some Lantern.on_command), [],
             lantern').
Proof.
  refine (lantern_client_survives_any_bytes module_registry
            (OneByteAtATimeReader.mk
               (DefaultReader.mk
                  [Byte.x20; Byte.x00; Byte.x01; Byte.x07; Byte.x12; Byte.x00;
                   Byte.x00]))
            Lantern.__init__ 9 _).
  simpl. lia.
Defined.

(** ** Calling [recv] again at the end of the stream *)

(** X21. What a further [recv()] does once the stream has ended inside a
    frame depends on what the first one left in the buffer.  With at most 3
    bytes buffered (a header cut short, or a whole header and none of its
    payload) it returns "no command" again and leaves the transport as it was.
    With a whole header and part of the payload buffered it raises
    [struct.error]: the header is unpacked from the whole buffer, which must
    hold exactly 3 bytes. *)
Theorem recv_again_after_truncation {R : Type} `{!Reader R} `{!FiniteStream R}
    (registry : gmap Z command_class) (reader : R) (fuel : nat) :
  (length (pending reader) + 2 ≤ fuel)%nat →
  (len (pending reader) < 3
   ∨ (∃ type_ length, struct.unpack_BH (pending reader) = Ret (type_, length)
                      ∧ 0 < length) →
   ∃ transport,
     CommandTransport.recv fuel registry (CommandTransport.__init__ reader)
       = Ret (None, transport)
     ∧ CommandTransport.recv fuel registry transport = Ret (None, transport))
  ∧ (∀ header partial type_ length,
       pending reader = header ++ partial →
       struct.unpack_BH header = Ret (type_, length) →
       0 < len partial < length →
       ∃ transport,
         CommandTransport.recv fuel registry (CommandTransport.__init__ reader)
           = Ret (None, transport)
         ∧ CommandTransport.recv fuel registry transport = Raise StructError).
Proof.
  intros Hfuel. split.
  - intros [Hshort|(type_ & length_ & Hun & Hpos)].
    + destruct (recv_truncated_header fuel registry reader Hshort Hfuel)
        as (reader' & Hrest & Hrun).
      exists (CommandTransport.mk reader' (pending reader)). split; [done|].
      unfold CommandTransport.recv. rewrite _await_buffered_unfold.
      unfold CommandTransport._bytes_missing. cbn [CommandTransport._read_buffer].
      rewrite bool_decide_true by (unfold COMMAND_HEADER_LENGTH; lia).
      destruct fuel as [|fuel]; [lia|].
      by rewrite (transport_at_eof reader' _ Hrest).
    + pose proof (unpack_BH_range _ _ _ Hun) as (Hh & _ & _).
      destruct (recv_truncated_payload fuel registry reader (pending reader) []
                  type_ length_) as (reader' & Hrest & Hrun);
        [by rewrite app_nil_r|done|by change (len []) with 0|done|].
      exists (CommandTransport.mk reader' (pending reader)). split; [done|].
      unfold CommandTransport.recv. rewrite _await_buffered_unfold.
      unfold CommandTransport._bytes_missing. cbn [CommandTransport._read_buffer].
      rewrite bool_decide_false by (unfold COMMAND_HEADER_LENGTH; lia).
      cbn [mbind outcome_bind]. unfold CommandTransport._process_buffer.
      cbn [CommandTransport._read_buffer]. rewrite Hun. cbn [mbind outcome_bind].
      rewrite bool_decide_true by done.
      rewrite _await_buffered_unfold. unfold CommandTransport._bytes_missing.
      cbn [CommandTransport._read_buffer].
      rewrite bool_decide_true by (unfold COMMAND_HEADER_LENGTH; lia).
      destruct fuel as [|fuel]; [lia|].
      by rewrite (transport_at_eof reader' _ Hrest).
  - intros header partial type_ length_ Hp Hun [Hsome Hshort].
    pose proof (unpack_BH_range _ _ _ Hun) as (Hh & _ & _).
    destruct (recv_truncated_payload fuel registry reader header partial
                type_ length_ Hp Hun Hshort Hfuel) as (reader' & Hrest & Hrun).
    exists (CommandTransport.mk reader' (pending reader)). split; [done|].
    unfold CommandTransport.recv. rewrite _await_buffered_unfold.
    unfold CommandTransport._bytes_missing. cbn [CommandTransport._read_buffer].
    rewrite bool_decide_false by (rewrite Hp; len_lia).
    cbn [mbind outcome_bind]. unfold CommandTransport._process_buffer.
    cbn [CommandTransport._read_buffer]. rewrite Hp.
    destruct header as [|b0 [|b1 [|b2 [|]]]]; try (by vm_compute in Hh).
    destruct partial as [|b3 partial]; [by vm_compute in Hsome|]. done.
Qed.

Lemma recv_again_after_truncation_witness :
  (∃ transport,
     CommandTransport.recv 5 module_registry
       (CommandTransport.__init__ (DefaultReader.mk [Byte.x20; Byte.x00; Byte.x03]))
       = Ret (None, transport)
     ∧ CommandTransport.recv 5 module_registry transport = Ret (None, transport))
  ∧ ∃ transport,
      CommandTransport.recv 7 module_registry
        (CommandTransport.__init__
           (DefaultReader.mk [Byte.x20; Byte.x00; Byte.x03; Byte.x01; Byte.x02]))
        = Ret (None, transport)
      ∧ CommandTransport.recv 7 module_registry transport = Raise StructError.
Proof.
  split.
  - refine (proj1 (recv_again_after_truncation module_registry
                     (DefaultReader.mk [Byte.x20; Byte.x00; Byte.x03]) 5 _) _).
    + simpl. lia.
    + right. exists 0x20, 3. split; [reflexivity|lia].
  - refine (proj2 (recv_again_after_truncation module_registry
                     (DefaultReader.mk
                        [Byte.x20; Byte.x00; Byte.x03; Byte.x01; Byte.x02]) 7 _)
              [Byte.x20; Byte.x00; Byte.x03] [Byte.x01; Byte.x02] 0x20 3 _ _ _).
    + simpl. lia.
    + reflexivity.
    + reflexivity.
    + vm_compute. split; reflexivity.
Defined.
